(** * Classroom schedule web application: a shallow embedding of
      [script.js] and [service-worker.js] and the properties of its
      ingestion, store and view logic.

    JavaScript strings are sequences of UTF-16 code units, numbers that the
    program handles as integers are [Z], and the not-a-number value is
    [None].  Platform functions (the workbook reader, the implementation
    defined part of [Date.parse], the network) are parameters. *)

From Stdlib Require Import ZArith NArith List Ascii String Lia Bool Sorted.
From stdpp Require Import base option list gmap.

Local Open Scope Z_scope.

(** ** JavaScript strings and the string built-ins the program calls *)
Module JS.

(** A string value: its UTF-16 code units. *)
Abbreviation jsstring := (list N).

(** Source literals are written as UTF-8 text and decoded to code units. *)
Fixpoint utf8_decode (bs : list N) : jsstring :=
  match bs with
  | [] => []
  | b0 :: r0 =>
    if (b0 <? 128)%N then b0 :: utf8_decode r0
    else match r0 with
    | [] => [b0]
    | b1 :: r1 =>
      if (b0 <? 224)%N
      then ((b0 - 192) * 64 + (b1 - 128))%N :: utf8_decode r1
      else match r1 with
      | [] => [b0; b1]
      | b2 :: r2 =>
        if (b0 <? 240)%N
        then ((b0 - 224) * 4096 + (b1 - 128) * 64 + (b2 - 128))%N :: utf8_decode r2
        else match r2 with
        | [] => [b0; b1; b2]
        | b3 :: r3 =>
          let cp := ((b0 - 240) * 262144 + (b1 - 128) * 4096
                     + (b2 - 128) * 64 + (b3 - 128))%N in
          (55296 + (cp - 65536) / 1024)%N
            :: (56320 + (cp - 65536) mod 1024)%N :: utf8_decode r3
        end
      end
    end
  end.

Definition u16 (s : string) : jsstring :=
  utf8_decode (map N_of_ascii (list_ascii_of_string s)).
Arguments u16 s%_string.

(** [a === b] on strings. *)
Definition streq (a b : jsstring) : bool := bool_decide (a = b).

(** WhiteSpace and LineTerminator code units, as [trim] and [parseInt] skip. *)
Definition isWhiteSpace (c : N) : bool :=
  ((9 <=? c) && (c <=? 13) || (c =? 32) || (c =? 160) || (c =? 5760)
   || (8192 <=? c) && (c <=? 8202) || (c =? 8232) || (c =? 8233)
   || (c =? 8239) || (c =? 8287) || (c =? 12288) || (c =? 65279))%N.

Fixpoint trimStart (s : jsstring) : jsstring :=
  match s with
  | c :: r => if isWhiteSpace c then trimStart r else s
  | [] => []
  end.

Definition trimEnd (s : jsstring) : jsstring := rev (trimStart (rev s)).

(** [s.trim()] *)
Definition trim (s : jsstring) : jsstring := trimEnd (trimStart s).

(** [s.split(sep)] for a separator that matches single code units: the
    pieces between the matching units, empty pieces kept. *)
Fixpoint split (sep : N -> bool) (s : jsstring) : list jsstring :=
  match s with
  | [] => [[]]
  | c :: r =>
    if sep c then [] :: split sep r
    else match split sep r with
         | h :: t => (c :: h) :: t
         | [] => [[c]]
         end
  end.

(** [s.replace(/c/g, r)] for a single code unit [c]. *)
Definition replaceAll (c : N) (r : jsstring) (s : jsstring) : jsstring :=
  flat_map (fun x => if (x =? c)%N then r else [x]) s.

(** The value of a digit in radix [R], if it is one. *)
Definition digitValue (R : Z) (c : N) : option Z :=
  let v :=
    if ((48 <=? c) && (c <=? 57))%N then Z.of_N c - 48
    else if ((97 <=? c) && (c <=? 122))%N then Z.of_N c - 87
    else if ((65 <=? c) && (c <=? 90))%N then Z.of_N c - 55
    else 36 in
  if v <? R then Some v else None.

(** The longest prefix of radix-[R] digits: its value and whether it is
    non-empty. *)
Fixpoint parseDigits (R : Z) (s : jsstring) (acc : Z) (seen : bool) : option Z :=
  match s with
  | c :: r =>
    match digitValue R c with
    | Some v => parseDigits R r (acc * R + v) true
    | None => if seen then Some acc else None
    end
  | [] => if seen then Some acc else None
  end.

(** [parseInt(s, radix)]; [radix = 0] stands for an absent radix, which
    reads a [0x] prefix as hexadecimal.  [None] is NaN. *)
Definition parseInt (radix : Z) (s : jsstring) : option Z :=
  let s1 := trimStart s in
  let '(sign, s2) :=
    match s1 with
    | 45%N :: r => (-1, r)
    | 43%N :: r => (1, r)
    | _ => (1, s1)
    end in
  let '(R, s3) :=
    if radix =? 0 then
      match s2 with
      | 48%N :: x :: r => if ((x =? 120) || (x =? 88))%N then (16, r) else (10, s2)
      | _ => (10, s2)
      end
    else (radix, s2) in
  match parseDigits R s3 0 false with
  | Some v => Some (sign * v)
  | None => None
  end.

(** Decimal digits of a natural number, most significant first. *)
Fixpoint digitsOf (fuel : nat) (n : N) (acc : jsstring) : jsstring :=
  match fuel with
  | O => acc
  | S f =>
    let acc' := (48 + n mod 10)%N :: acc in
    if (n <? 10)%N then acc' else digitsOf f (n / 10)%N acc'
  end.

(** [n.toString()] for an integer-valued number. *)
Definition Number_toString (z : Z) : jsstring :=
  let n := Z.to_N (Z.abs z) in
  let ds := digitsOf (S (N.size_nat n)) n [] in
  if z <? 0 then 45%N :: ds else ds.

(** [x.toString()] where [x] may be NaN. *)
Definition NaN_toString (x : option Z) : jsstring :=
  match x with
  | Some z => Number_toString z
  | None => u16 "NaN"
  end.

(** [s.padStart(n, '0')] *)
Definition padStart0 (n : nat) (s : jsstring) : jsstring :=
  replicate (n - length s) 48%N ++ s.

(** [escapeHtml] of script.js: five global replacements, in this order. *)
Definition escapeHtml (str : jsstring) : jsstring :=
  replaceAll 39 (u16 "&#39;")
    (replaceAll 34 (u16 "&quot;")
      (replaceAll 62 (u16 "&gt;")
        (replaceAll 60 (u16 "&lt;")
          (replaceAll 38 (u16 "&amp;") str)))).

(** The order of the default [sort()] on strings: by code units. *)
Fixpoint strltb (a b : jsstring) : bool :=
  match a, b with
  | _, [] => false
  | [], _ :: _ => true
  | x :: a', y :: b' => (x <? y)%N || ((x =? y)%N && strltb a' b')
  end.

(** [Array.prototype.sort(cmp)]: a stable sort; [cmp a b > 0] puts [b]
    first, and a NaN result counts as 0. *)
Section Sort.
Context {A : Type} (cmp : A -> A -> option Z).

Definition comesAfter (x y : A) : bool :=
  match cmp x y with
  | Some v => 0 <? v
  | None => false
  end.

Fixpoint sortInsert (x : A) (l : list A) : list A :=
  match l with
  | [] => [x]
  | y :: r => if comesAfter x y then y :: sortInsert x r else x :: l
  end.

Definition sortWith (l : list A) : list A := foldr sortInsert [] l.
End Sort.

Definition defaultCompare (a b : jsstring) : option Z :=
  Some (if strltb a b then -1 else if strltb b a then 1 else 0).

(** [arr.sort()] on an array of strings. *)
Definition sortStrings (l : list jsstring) : list jsstring :=
  sortWith defaultCompare l.

(** [Array.from(new Set(arr))]: the distinct elements in the order of their
    first occurrence. *)
Definition SetFrom (l : list jsstring) : list jsstring :=
  fold_left (fun acc x => if bool_decide (x ∈ acc) then acc else acc ++ [x]) l [].

End JS.

(** ** The host: the browser and the SheetJS library *)
Module Platform.
Import JS.

(** A cell value of the 2-D array [sheet_to_json] returns with
    [header: 1, defval: '']: text, a number (the model covers the
    integer-valued ones), a boolean or a [Date] (its time value). *)
Inductive cell :=
| CStr (s : jsstring)
| CNum (n : Z)
| CBool (b : bool)
| CDate (t : option Z).

#[global] Instance cell_eq_dec : EqDecision cell.
Proof. solve_decision. Defined.

(** What the program takes from its host:
    - the local time zone, taken with a constant offset from UTC
      (LocalTZA, in ms);
    - what [Date.parse] makes of a string that is not a date-only ISO
      string (the standard leaves most of it to the implementation);
    - [toString] of a [Date];
    - [XLSX.read] followed by [sheet_to_json] of the first sheet, [None]
      when either throws;
    - whether [localStorage.setItem] accepts a value (it throws a
      QuotaExceededError otherwise, and stores nothing);
    - the [value] of a select element whose [innerHTML] was just set. *)
Record Host := {
  LocalTZA : Z;
  Date_parse_impl : jsstring -> option Z;
  Date_toString : option Z -> jsstring;
  XLSX_rows : list N -> option (list (list cell));
  storage_accepts : jsstring -> bool;
  select_value : jsstring -> jsstring
}.

End Platform.

(** ** Time values and the [Date] built-ins *)
Module JSDate.
Import JS Platform.

Definition msPerDay : Z := 86400000.

(** Day number (days since 1970-01-01) of a proleptic Gregorian date,
    [m] in 1..12. *)
Definition daysFromCivil (y m d : Z) : Z :=
  let y' := if m <=? 2 then y - 1 else y in
  let era := y' / 400 in
  let yoe := y' - era * 400 in
  let mp := (m + 9) mod 12 in
  let doy := (153 * mp + 2) / 5 + d - 1 in
  let doe := yoe * 365 + yoe / 4 - yoe / 100 + doy in
  era * 146097 + doe - 719468.

(** Year, month (1..12) and day of month of a day number. *)
Definition civilFromDays (z : Z) : Z * Z * Z :=
  let z' := z + 719468 in
  let era := z' / 146097 in
  let doe := z' - era * 146097 in
  let yoe := (doe - doe / 1460 + doe / 36524 - doe / 146096) / 365 in
  let doy := doe - (365 * yoe + yoe / 4 - yoe / 100) in
  let mp := (5 * doy + 2) / 153 in
  let d := doy - (153 * mp + 2) / 5 + 1 in
  let m := if mp <? 10 then mp + 3 else mp - 9 in
  (if m <=? 2 then yoe + era * 400 + 1 else yoe + era * 400, m, d).

Definition isLeapYear (y : Z) : bool :=
  (y mod 4 =? 0) && (negb (y mod 100 =? 0) || (y mod 400 =? 0)).

Definition daysInMonth (y m : Z) : Z :=
  if m =? 2 then (if isLeapYear y then 29 else 28)
  else if (m =? 4) || (m =? 6) || (m =? 9) || (m =? 11) then 30 else 31.

(** MakeDay(year, month, date), [month] counted from 0 and of any size. *)
Definition MakeDay (year month date : Z) : Z :=
  daysFromCivil (year + month / 12) (month mod 12 + 1) 1 + date - 1.

(** TimeClip: a time value is at most 8.64e15 ms from the epoch, else NaN. *)
Definition TimeClip (t : Z) : option Z :=
  if Z.abs t <=? 8640000000000000 then Some t else None.

(** Years 0..99 given to [Date.UTC] or to the [Date] constructor mean
    1900..1999. *)
Definition fullYear (y : Z) : Z :=
  if (0 <=? y) && (y <=? 99) then 1900 + y else y.

(** [Date.UTC(y, m, d)] *)
Definition Date_UTC (y m d : Z) : option Z :=
  TimeClip (MakeDay (fullYear y) m d * msPerDay).

Definition isDigit (c : N) : bool := ((48 <=? c) && (c <=? 57))%N.
Definition digit (c : N) : Z := Z.of_N c - 48.

(** The date-only ISO form [YYYY-MM-DD] of [Date.parse], which denotes
    midnight UTC of a valid calendar date. *)
Definition parseIsoDate (s : jsstring) : option Z :=
  match s with
  | [y1; y2; y3; y4; h1; m1; m2; h2; d1; d2] =>
    if forallb isDigit [y1; y2; y3; y4; m1; m2; d1; d2]
       && (h1 =? 45)%N && (h2 =? 45)%N
    then
      let y := ((digit y1 * 10 + digit y2) * 10 + digit y3) * 10 + digit y4 in
      let m := digit m1 * 10 + digit m2 in
      let d := digit d1 * 10 + digit d2 in
      if (1 <=? m) && (m <=? 12) && (1 <=? d) && (d <=? daysInMonth y m)
      then Some (daysFromCivil y m d * msPerDay)
      else None
    else None
  | _ => None
  end.

Section WithHost.
Context (H : Host).

(** [Date.parse(s)]; [None] is NaN. *)
Definition Date_parse (s : jsstring) : option Z :=
  match parseIsoDate s with
  | Some t => Some t
  | None => Date_parse_impl H s
  end.

(** [new Date(y, m, d)]: the fields are local time. *)
Definition Date_ymd (y m d : option Z) : option Z :=
  match y, m, d with
  | Some y, Some m, Some d =>
    TimeClip (MakeDay (fullYear y) m d * msPerDay - LocalTZA H)
  | _, _, _ => None
  end.

Definition LocalTime (t : Z) : Z := t + LocalTZA H.
Definition Day (t : Z) : Z := t / msPerDay.

(** [getFullYear()], [getMonth()] (from 0) and [getDate()]: local time. *)
Definition getFullYear (t : option Z) : option Z :=
  match t with
  | Some t => Some (fst (fst (civilFromDays (Day (LocalTime t)))))
  | None => None
  end.
Definition getMonth (t : option Z) : option Z :=
  match t with
  | Some t => Some (snd (fst (civilFromDays (Day (LocalTime t)))) - 1)
  | None => None
  end.
Definition getDate (t : option Z) : option Z :=
  match t with
  | Some t => Some (snd (civilFromDays (Day (LocalTime t))))
  | None => None
  end.
End WithHost.

End JSDate.

(** ** Ingestion: [parseScheduleFile], from the sheet's rows to the events *)
Module Ingest.
Import JS Platform JSDate.

(** One scheduled occupancy of a room, as pushed to [events]. *)
Record ScheduleEntry := {
  date : jsstring;
  start : jsstring;
  end_ : jsstring;
  dayOfWeek : jsstring;
  discipline : jsstring;
  type : jsstring;
  group : jsstring;
  building : jsstring;
  room : jsstring;
  teacher : jsstring
}.

#[global] Instance ScheduleEntry_eq_dec : EqDecision ScheduleEntry.
Proof. solve_decision. Defined.

(** The header labels of the template. *)
Definition L_date := u16 "Дата".
Definition L_start := u16 "Время начала".
Definition L_end := u16 "Время окончания".
Definition L_dayOfWeek := u16 "День недели".
Definition L_discipline := u16 "Дисциплина".
Definition L_type := u16 "Вид работы".
Definition L_group := u16 "Контингент".
Definition L_building := u16 "Корпус".
Definition L_room := u16 "Аудитория".
Definition L_teacher := u16 "Преподаватель".

(** Truthiness of a value read from a row; [None] is [undefined]. *)
Definition truthy (v : option cell) : bool :=
  match v with
  | Some (CStr s) => negb (bool_decide (s = []))
  | Some (CNum n) => negb (n =? 0)
  | Some (CBool b) => b
  | Some (CDate _) => true
  | None => false
  end.

(** [row.includes(label)] *)
Definition includes (row : list cell) (label : jsstring) : bool :=
  bool_decide (CStr label ∈ row).

(** The predicate of [rows.findIndex]: a row with both required labels. *)
Definition isHeaderRow (row : list cell) : bool :=
  includes row L_date && includes row L_start.

(** [rows.findIndex(p)]; [None] is -1. *)
Fixpoint findIndex {A} (p : A -> bool) (l : list A) : option nat :=
  match l with
  | [] => None
  | x :: r => if p x then Some O else S <$> findIndex p r
  end.

(** [headerMap[key] = idx] on the plain object [headerMap]: an own property
    is set, except for the key [__proto__], whose setter ignores a number. *)
Definition setKey (key : jsstring) (idx : nat) (m : gmap jsstring nat)
  : gmap jsstring nat :=
  if bool_decide (key = u16 "__proto__") then m else <[key := idx]> m.

(** The body of [headerRow.forEach]. *)
Definition headerStep (m : gmap jsstring nat) (ic : nat * cell)
  : gmap jsstring nat :=
  match ic.2 with
  | CStr s => if bool_decide (0 < length (trim s))%nat
              then setKey (trim s) ic.1 m else m
  | _ => m
  end.

(** [headerMap] after the loop over [headerRow]. *)
Definition headerMapOf (headerRow : list cell) : gmap jsstring nat :=
  fold_left headerStep (zip (seq 0 (length headerRow)) headerRow) ∅.

(** [row[headerMap[label]]]; [None] is [undefined]. *)
Definition at_ (headerMap : gmap jsstring nat) (row : list cell)
    (label : jsstring) : option cell :=
  match headerMap !! label with
  | Some i => row !! i
  | None => None
  end.

Section WithHost.
Context (H : Host).

(** [x.toString()] of a cell value. *)
Definition toString (c : cell) : jsstring :=
  match c with
  | CStr s => s
  | CNum n => Number_toString n
  | CBool b => if b then u16 "true" else u16 "false"
  | CDate t => Date_toString H t
  end.

(** [(row[headerMap[label]] || '').toString().trim()] *)
Definition field (headerMap : gmap jsstring nat) (row : list cell)
    (label : jsstring) : jsstring :=
  let v := at_ headerMap row label in
  trim (if truthy v then from_option toString [] v else []).

Definition isDateSep (c : N) : bool := ((c =? 46) || (c =? 47))%N.

(** [dateObj] for a truthy [rawDate]: the time value of the [Date]. *)
Definition dateObj (rawDate : cell) : option Z :=
  match rawDate with
  | CDate t => t
  | CNum n =>
    match Date_UTC 1899 11 30 with
    | Some epoch => TimeClip (epoch + n * 24 * 60 * 60 * 1000)
    | None => None
    end
  | _ =>
    match split isDateSep (toString rawDate) with
    | [d; m; y] =>
      Date_ymd H (parseInt 0 y) (Z.pred <$> parseInt 0 m) (parseInt 0 d)
    | _ =>
      match rawDate with
      | CStr s => Date_parse H s
      | CBool b => TimeClip (if b then 1 else 0)
      | _ => None
      end
    end
  end.

(** [isoDate]: the three local-time fields, padded and joined. *)
Definition isoDateOf (t : option Z) : jsstring :=
  let yyyy := padStart0 4 (NaN_toString (getFullYear H t)) in
  let mm := padStart0 2 (NaN_toString (Z.succ <$> getMonth H t)) in
  let dd := padStart0 2 (NaN_toString (getDate H t)) in
  yyyy ++ u16 "-" ++ mm ++ u16 "-" ++ dd.

(** Date normalization of one date cell. *)
Definition isoDate (rawDate : cell) : jsstring := isoDateOf (dateObj rawDate).

(** The object pushed for a row whose date cell is [rawDate]. *)
Definition entryOf (headerMap : gmap jsstring nat) (rawDate : cell)
    (row : list cell) : ScheduleEntry :=
  {| date := isoDate rawDate;
     start := field headerMap row L_start;
     end_ := field headerMap row L_end;
     dayOfWeek := field headerMap row L_dayOfWeek;
     discipline := field headerMap row L_discipline;
     type := field headerMap row L_type;
     group := field headerMap row L_group;
     building := field headerMap row L_building;
     room := field headerMap row L_room;
     teacher := field headerMap row L_teacher |}.

(** The body of [dataRows.forEach]: [events] after one more row. *)
Definition pushRow (headerMap : gmap jsstring nat)
    (events : list ScheduleEntry) (row : list cell) : list ScheduleEntry :=
  match at_ headerMap row L_date with
  | Some rawDate =>
    if negb (truthy (Some rawDate)) then events
    else events ++ [entryOf headerMap rawDate row]
  | None => events
  end.

(** The predicate of the [filter] that gives [dataRows]. *)
Definition isDataRow (headerMap : gmap jsstring nat) (r : list cell) : bool :=
  bool_decide (0 < length r)%nat && truthy (at_ headerMap r L_date).

(** [events] for the rows of the first sheet; [None] when no header row
    is found. *)
Definition eventsOf (rows : list (list cell)) : option (list ScheduleEntry) :=
  match findIndex isHeaderRow rows with
  | None => None
  | Some headerIndex =>
    let headerRow := default [] (rows !! headerIndex) in
    let headerMap := headerMapOf headerRow in
    let dataRows := filter (fun r => isDataRow headerMap r)
                           (drop (headerIndex + 1) rows) in
    Some (fold_left (pushRow headerMap) dataRows [])
  end.
End WithHost.

End Ingest.

(** ** [JSON.parse] and [JSON.stringify] *)
Module Json.
Import JS Ingest.

(** A parsed JSON value; a number keeps its text. *)
#[warnings="-register-all"]
Inductive jsval :=
| JNull
| JBool (b : bool)
| JNum (text : jsstring)
| JStr (s : jsstring)
| JArr (elements : list jsval)
| JObj (members : list (jsstring * jsval)).

Definition isJsonWs (c : N) : bool :=
  ((c =? 32) || (c =? 9) || (c =? 10) || (c =? 13))%N.

Fixpoint skipWs (s : jsstring) : jsstring :=
  match s with
  | c :: r => if isJsonWs c then skipWs r else s
  | [] => []
  end.

Definition hexValue (c : N) : option N :=
  if ((48 <=? c) && (c <=? 57))%N then Some (c - 48)%N
  else if ((97 <=? c) && (c <=? 102))%N then Some (c - 87)%N
  else if ((65 <=? c) && (c <=? 70))%N then Some (c - 55)%N
  else None.

Definition hex4 (a b c d : N) : option N :=
  match hexValue a, hexValue b, hexValue c, hexValue d with
  | Some x, Some y, Some z, Some w => Some (((x * 16 + y) * 16 + z) * 16 + w)%N
  | _, _, _, _ => None
  end.

(** The unit a one-letter escape stands for. *)
Definition escapeChar (e : N) : option N :=
  if (e =? 34)%N then Some 34%N
  else if (e =? 92)%N then Some 92%N
  else if (e =? 47)%N then Some 47%N
  else if (e =? 98)%N then Some 8%N
  else if (e =? 102)%N then Some 12%N
  else if (e =? 110)%N then Some 10%N
  else if (e =? 114)%N then Some 13%N
  else if (e =? 116)%N then Some 9%N
  else None.

(** A string after its opening quote: its value and what follows the
    closing quote. *)
Fixpoint parseString (s : jsstring) : option (jsstring * jsstring) :=
  match s with
  | [] => None
  | c :: r =>
    if (c =? 34)%N then Some ([], r)
    else if (c =? 92)%N then
      match r with
      | [] => None
      | e :: r1 =>
        if (e =? 117)%N then
          match r1 with
          | a :: b :: c' :: d :: r2 =>
            match hex4 a b c' d with
            | Some u => prod_map (cons u) id <$> parseString r2
            | None => None
            end
          | _ => None
          end
        else
          match escapeChar e with
          | Some x => prod_map (cons x) id <$> parseString r1
          | None => None
          end
      end
    else if (c <? 32)%N then None
    else prod_map (cons c) id <$> parseString r
  end.

Definition isJsonDigit (c : N) : bool := ((48 <=? c) && (c <=? 57))%N.

Fixpoint spanDigits (s : jsstring) : jsstring * jsstring :=
  match s with
  | c :: r => if isJsonDigit c then prod_map (cons c) id (spanDigits r) else ([], s)
  | [] => ([], [])
  end.

(** A number: an optional minus, an integer part with no leading zero,
    an optional fraction and an optional exponent.  The result is the text
    of the number and what follows it. *)
Definition parseNumber (s : jsstring) : option (jsstring * jsstring) :=
  let '(sign, s1) :=
    match s with
    | c :: r => if (c =? 45)%N then ([c], r) else ([], s)
    | [] => ([], s)
    end in
  let '(int, s2) := spanDigits s1 in
  match int with
  | [] => None
  | d0 :: ds =>
    if (d0 =? 48)%N && negb (bool_decide (ds = [])) then None
    else
      let frac :=
        match s2 with
        | c :: r =>
          if (c =? 46)%N then
            let '(fd, r') := spanDigits r in
            match fd with
            | [] => None
            | _ => Some (c :: fd, r')
            end
          else Some ([], s2)
        | [] => Some ([], s2)
        end in
      match frac with
      | None => None
      | Some (fr, s3) =>
        let exp :=
          match s3 with
          | c :: r =>
            if ((c =? 101) || (c =? 69))%N then
              let '(sg, r1) :=
                match r with
                | x :: r' => if ((x =? 43) || (x =? 45))%N then ([x], r') else ([], r)
                | [] => ([], r)
                end in
              let '(ed, r2) := spanDigits r1 in
              match ed with
              | [] => None
              | _ => Some (c :: sg ++ ed, r2)
              end
            else Some ([], s3)
          | [] => Some ([], s3)
          end in
        match exp with
        | None => None
        | Some (ex, s4) => Some (sign ++ int ++ fr ++ ex, s4)
        end
      end
  end.

(** [s] without the prefix [p], if it starts with it. *)
Fixpoint stripPrefix (p s : jsstring) : option jsstring :=
  match p, s with
  | [], _ => Some s
  | x :: p', y :: s' => if (x =? y)%N then stripPrefix p' s' else None
  | _ :: _, [] => None
  end.

(** A value, the elements of an array after its first bracket, and the
    members of an object after its first brace.  [fuel] bounds the depth
    of the calls. *)
Fixpoint parseValue (fuel : nat) (s : jsstring) : option (jsval * jsstring) :=
  match fuel with
  | O => None
  | S f =>
    match skipWs s with
    | [] => None
    | c :: r =>
      if (c =? 34)%N then prod_map JStr id <$> parseString r
      else if (c =? 91)%N then
        match skipWs r with
        | x :: r' =>
          if (x =? 93)%N then Some (JArr [], r')
          else prod_map JArr id <$> parseElements f r
        | [] => None
        end
      else if (c =? 123)%N then
        match skipWs r with
        | x :: r' =>
          if (x =? 125)%N then Some (JObj [], r')
          else prod_map JObj id <$> parseMembers f r
        | [] => None
        end
      else if (c =? 116)%N then pair (JBool true) <$> stripPrefix (u16 "rue") r
      else if (c =? 102)%N then pair (JBool false) <$> stripPrefix (u16 "alse") r
      else if (c =? 110)%N then pair JNull <$> stripPrefix (u16 "ull") r
      else prod_map JNum id <$> parseNumber (c :: r)
    end
  end
with parseElements (fuel : nat) (s : jsstring) : option (list jsval * jsstring) :=
  match fuel with
  | O => None
  | S f =>
    match parseValue f s with
    | Some (v, r) =>
      match skipWs r with
      | c :: r' =>
        if (c =? 44)%N then prod_map (cons v) id <$> parseElements f r'
        else if (c =? 93)%N then Some ([v], r')
        else None
      | [] => None
      end
    | None => None
    end
  end
with parseMembers (fuel : nat) (s : jsstring)
  : option (list (jsstring * jsval) * jsstring) :=
  match fuel with
  | O => None
  | S f =>
    match skipWs s with
    | q :: r0 =>
      if (q =? 34)%N then
        match parseString r0 with
        | Some (k, r1) =>
          match skipWs r1 with
          | c1 :: r2 =>
            if (c1 =? 58)%N then
              match parseValue f r2 with
              | Some (v, r3) =>
                match skipWs r3 with
                | c :: r' =>
                  if (c =? 44)%N then prod_map (cons (k, v)) id <$> parseMembers f r'
                  else if (c =? 125)%N then Some ([(k, v)], r')
                  else None
                | [] => None
                end
              | None => None
              end
            else None
          | [] => None
          end
        | None => None
        end
      else None
    | [] => None
    end
  end.

(** [JSON.parse(s)]; [None] when it throws a SyntaxError. *)
Definition JSON_parse (s : jsstring) : option jsval :=
  match parseValue (2 * length s + 2) s with
  | Some (v, r) => match skipWs r with [] => Some v | _ :: _ => None end
  | None => None
  end.

Definition hexDigit (n : N) : N := if (n <? 10)%N then (48 + n)%N else (87 + n)%N.

(** The escape [\uXXXX] of a code unit, in lower-case hexadecimal. *)
Definition unicodeEscape (c : N) : jsstring :=
  [92; 117; hexDigit (c / 4096); hexDigit (c / 256 mod 16);
   hexDigit (c / 16 mod 16); hexDigit (c mod 16)]%N.

Definition isHighSurrogate (c : N) : bool := ((55296 <=? c) && (c <=? 56319))%N.
Definition isLowSurrogate (c : N) : bool := ((56320 <=? c) && (c <=? 57343))%N.

(** The inside of a quoted JSON string: quote, backslash and control
    units escaped, and so is a surrogate that has no partner. *)
Fixpoint quoteChars (s : jsstring) : jsstring :=
  match s with
  | [] => []
  | c :: r =>
    if (c =? 34)%N then 92%N :: 34%N :: quoteChars r
    else if (c =? 92)%N then 92%N :: 92%N :: quoteChars r
    else if (c =? 8)%N then 92%N :: 98%N :: quoteChars r
    else if (c =? 12)%N then 92%N :: 102%N :: quoteChars r
    else if (c =? 10)%N then 92%N :: 110%N :: quoteChars r
    else if (c =? 13)%N then 92%N :: 114%N :: quoteChars r
    else if (c =? 9)%N then 92%N :: 116%N :: quoteChars r
    else if (c <? 32)%N then unicodeEscape c ++ quoteChars r
    else if isHighSurrogate c then
      match r with
      | c2 :: r2 =>
        if isLowSurrogate c2 then c :: c2 :: quoteChars r2
        else unicodeEscape c ++ quoteChars r
      | [] => unicodeEscape c
      end
    else if isLowSurrogate c then unicodeEscape c ++ quoteChars r
    else c :: quoteChars r
  end.

Definition quote (s : jsstring) : jsstring := 34%N :: quoteChars s ++ [34%N].

Definition member (key value : jsstring) : jsstring :=
  quote key ++ 58%N :: quote value.

(** [sep.join(parts)] *)
Fixpoint join (sep : jsstring) (parts : list jsstring) : jsstring :=
  match parts with
  | [] => []
  | [x] => x
  | x :: r => x ++ sep ++ join sep r
  end.

(** [JSON.stringify] of one event: its ten properties in the order of the
    object literal that [parseScheduleFile] pushes. *)
Definition stringifyEntry (e : ScheduleEntry) : jsstring :=
  123%N :: join [44%N]
    [ member (u16 "date") (date e); member (u16 "start") (start e);
      member (u16 "end") (end_ e); member (u16 "dayOfWeek") (dayOfWeek e);
      member (u16 "discipline") (discipline e); member (u16 "type") (type e);
      member (u16 "group") (group e); member (u16 "building") (building e);
      member (u16 "room") (room e); member (u16 "teacher") (teacher e) ]
  ++ [125%N].

(** [JSON.stringify(events)] *)
Definition JSON_stringify (events : list ScheduleEntry) : jsstring :=
  91%N :: join [44%N] (map stringifyEntry events) ++ [93%N].

(** [o[key]] on a parsed object: the last member with that key. *)
Fixpoint getProp (members : list (jsstring * jsval)) (key : jsstring)
  : option jsval :=
  match members with
  | [] => None
  | (k, v) :: r =>
    match getProp r key with
    | Some v' => Some v'
    | None => if bool_decide (k = key) then Some v else None
    end
  end.

Definition getString (members : list (jsstring * jsval)) (key : jsstring)
  : option jsstring :=
  match getProp members key with
  | Some (JStr s) => Some s
  | _ => None
  end.

(** A parsed value read as a ScheduleEntry: an object whose ten
    properties are strings. *)
Definition asEntry (v : jsval) : option ScheduleEntry :=
  match v with
  | JObj o =>
    d ← getString o (u16 "date");
    s ← getString o (u16 "start");
    e ← getString o (u16 "end");
    w ← getString o (u16 "dayOfWeek");
    di ← getString o (u16 "discipline");
    t ← getString o (u16 "type");
    g ← getString o (u16 "group");
    b ← getString o (u16 "building");
    r ← getString o (u16 "room");
    te ← getString o (u16 "teacher");
    Some {| date := d; start := s; end_ := e; dayOfWeek := w;
            discipline := di; type := t; group := g; building := b;
            room := r; teacher := te |}
  | _ => None
  end.

(** The elements of a parsed array read as events, when all of them are. *)
Definition asEntries (elements : list jsval) : option (list ScheduleEntry) :=
  mapM asEntry elements.

End Json.

(** ** View: the grid of [renderSchedule] and the selectors of [initSchedule] *)
Module View.
Import JS Ingest.

(** The double quote of an attribute. *)
Definition q : jsstring := [34%N].

Definition isColon (c : N) : bool := (c =? 58)%N.

(** [ah * 60 + am] for [[ah, am] = a.split(':').map(v => parseInt(v, 10))];
    [None] is NaN, also when the second part is missing. *)
Definition minutesOf (a : jsstring) : option Z :=
  match map (parseInt 10) (split isColon a) with
  | Some ah :: Some am :: _ => Some (ah * 60 + am)
  | _ => None
  end.

(** The comparator given to [sort] for the start times. *)
Definition compareTimes (a b : jsstring) : option Z :=
  match minutesOf a, minutesOf b with
  | Some x, Some y => Some (x - y)
  | _, _ => None
  end.

(** [events.filter(ev => ev.building === building && ev.date === date)] *)
Definition dailyEventsOf (events : list ScheduleEntry) (b d : jsstring)
  : list ScheduleEntry :=
  filter (fun ev => streq (building ev) b && streq (date ev) d) events.

Definition roomsOf (dailyEvents : list ScheduleEntry) : list jsstring :=
  sortStrings (SetFrom (map room dailyEvents)).

Definition timesOf (dailyEvents : list ScheduleEntry) : list jsstring :=
  sortWith compareTimes (SetFrom (map start dailyEvents)).

(** [dailyEvents.find(e => e.room === room && e.start === time)] *)
Definition findEvent (dailyEvents : list ScheduleEntry) (r t : jsstring)
  : option ScheduleEntry :=
  List.find (fun e => streq (room e) r && streq (start e) t) dailyEvents.

(** The markup of one cell of the grid. *)
Definition cellHtml (dailyEvents : list ScheduleEntry) (time r : jsstring)
  : jsstring :=
  match findEvent dailyEvents r time with
  | Some ev =>
    let subj := discipline ev in
    let grp := group ev in
    u16 "<td class=" ++ q ++ u16 "occupied" ++ q ++ u16 "><div class=" ++ q
      ++ u16 "subject" ++ q ++ u16 ">" ++ escapeHtml subj
      ++ u16 "</div><div class=" ++ q ++ u16 "group" ++ q ++ u16 ">"
      ++ escapeHtml grp ++ u16 "</div></td>"
  | None =>
    u16 "<td class=" ++ q ++ u16 "free" ++ q ++ u16 ">Свободно</td>"
  end.

(** The markup of the row of [time], the [idx]-th of [times]. *)
Definition rowHtml (dailyEvents : list ScheduleEntry) (rooms : list jsstring)
    (idx : nat) (time : jsstring) : jsstring :=
  u16 "<tr><td>" ++ Number_toString (Z.of_nat idx + 1) ++ u16 "</td><td>"
    ++ time ++ u16 "</td>"
    ++ concat (map (cellHtml dailyEvents time) rooms)
    ++ u16 "</tr>".

Definition headHtml (rooms : list jsstring) : jsstring :=
  u16 "<table class=" ++ q ++ u16 "schedule-table" ++ q ++ u16 "><thead><tr>"
    ++ u16 "<th>Пара</th><th>Время</th>"
    ++ concat (map (fun r => u16 "<th>" ++ r ++ u16 "</th>") rooms)
    ++ u16 "</tr></thead><tbody>".

(** The table built for a non-empty [dailyEvents]. *)
Definition tableHtml (dailyEvents : list ScheduleEntry) : jsstring :=
  let rooms := roomsOf dailyEvents in
  let times := timesOf dailyEvents in
  headHtml rooms
    ++ concat (imap (rowHtml dailyEvents rooms) times)
    ++ u16 "</tbody></table>".

Definition noClassesHtml : jsstring := u16 "<p>Нет занятий для выбранной даты.</p>".

(** What [renderSchedule] assigns to the container's [innerHTML] for the
    parsed [events] and the selection. *)
Definition gridHtml (events : list ScheduleEntry) (b d : jsstring) : jsstring :=
  let dailyEvents := dailyEventsOf events b d in
  match dailyEvents with
  | [] => noClassesHtml
  | _ :: _ => tableHtml dailyEvents
  end.

(** The options of the building selector. *)
Definition buildingOptionsHtml (events : list ScheduleEntry) : jsstring :=
  let buildings := sortStrings (SetFrom (map building events)) in
  concat (map (fun b =>
    let safeValue := escapeHtml b in
    let safeLabel := if bool_decide (b = []) then u16 "Неизвестный корпус" else b in
    u16 "<option value=" ++ q ++ safeValue ++ q ++ u16 ">"
      ++ escapeHtml safeLabel ++ u16 "</option>") buildings).

(** The options of the date selector. *)
Definition dateOptionsHtml (events : list ScheduleEntry) : jsstring :=
  let dates := sortStrings (SetFrom (map date events)) in
  concat (map (fun d =>
    u16 "<option value=" ++ q ++ d ++ q ++ u16 ">"
      ++ escapeHtml d ++ u16 "</option>") dates).

End View.

(** ** The page: the stored slot, [initSchedule], [renderSchedule] and the
       [onload] handler of [parseScheduleFile] *)
Module App.
Import JS Platform Ingest Json View.

(** The [schedule] slot of localStorage and the parts of the page the
    program writes. *)
Record State := {
  slot : option jsstring;
  statusText : jsstring;
  controlsDisplay : jsstring;
  replaceBtnDisplay : jsstring;
  scheduleHtml : jsstring;
  buildingSelectHtml : jsstring;
  dateSelectHtml : jsstring;
  buildingValue : jsstring;
  dateValue : jsstring;
  alerts : list jsstring;
  console : list jsstring
}.

Inductive error := SyntaxError | TypeError | QuotaExceededError | ReadError.

(** How a call ends: it returns, it throws (the state is the one reached
    when the exception was raised), or the stored array holds elements
    that are not ScheduleEntry objects, which the model does not follow. *)
Inductive outcome :=
| Done (st : State)
| Thrown (e : error) (st : State)
| Unmodelled.

Definition setSlot (v : option jsstring) (st : State) : State :=
  {| slot := v; statusText := statusText st;
     controlsDisplay := controlsDisplay st;
     replaceBtnDisplay := replaceBtnDisplay st;
     scheduleHtml := scheduleHtml st;
     buildingSelectHtml := buildingSelectHtml st;
     dateSelectHtml := dateSelectHtml st;
     buildingValue := buildingValue st; dateValue := dateValue st;
     alerts := alerts st; console := console st |}.

(** The four assignments that put the page back to "nothing to show". *)
Definition resetView (msg : jsstring) (st : State) : State :=
  {| slot := slot st; statusText := msg;
     controlsDisplay := u16 "none";
     replaceBtnDisplay := u16 "none";
     scheduleHtml := [];
     buildingSelectHtml := buildingSelectHtml st;
     dateSelectHtml := dateSelectHtml st;
     buildingValue := buildingValue st; dateValue := dateValue st;
     alerts := alerts st; console := console st |}.

Definition alert (msg : jsstring) (st : State) : State :=
  {| slot := slot st; statusText := statusText st;
     controlsDisplay := controlsDisplay st;
     replaceBtnDisplay := replaceBtnDisplay st;
     scheduleHtml := scheduleHtml st;
     buildingSelectHtml := buildingSelectHtml st;
     dateSelectHtml := dateSelectHtml st;
     buildingValue := buildingValue st; dateValue := dateValue st;
     alerts := alerts st ++ [msg]; console := console st |}.

Definition log (msg : jsstring) (st : State) : State :=
  {| slot := slot st; statusText := statusText st;
     controlsDisplay := controlsDisplay st;
     replaceBtnDisplay := replaceBtnDisplay st;
     scheduleHtml := scheduleHtml st;
     buildingSelectHtml := buildingSelectHtml st;
     dateSelectHtml := dateSelectHtml st;
     buildingValue := buildingValue st; dateValue := dateValue st;
     alerts := alerts st; console := console st ++ [msg] |}.

(** [scheduleContainer.innerHTML = html; statusEl.textContent = ''] *)
Definition showGrid (html : jsstring) (st : State) : State :=
  {| slot := slot st; statusText := [];
     controlsDisplay := controlsDisplay st;
     replaceBtnDisplay := replaceBtnDisplay st;
     scheduleHtml := html;
     buildingSelectHtml := buildingSelectHtml st;
     dateSelectHtml := dateSelectHtml st;
     buildingValue := buildingValue st; dateValue := dateValue st;
     alerts := alerts st; console := console st |}.

Definition uploadMsg : jsstring := u16 "Загрузите файл расписания.".
Definition noDataMsg : jsstring := u16 "Файл расписания не содержит данных.".
Definition headerNotFoundMsg : jsstring :=
  u16 "Не удалось найти строку заголовка в файле. Убедитесь, что файл соответствует шаблону.".
Definition parseErrorMsg : jsstring :=
  u16 "Произошла ошибка при чтении файла. Проверьте формат и попробуйте снова.".
Definition parseErrorLog : jsstring := u16 "Ошибка при разборе файла:".
Definition corruptLog : jsstring := u16 "Stored schedule could not be parsed; clearing.".

(** [!stored] for what [localStorage.getItem] returned: [null] or the
    empty string. *)
Definition absent (stored : option jsstring) : bool :=
  match stored with
  | None => true
  | Some s => bool_decide (s = [])
  end.

(** [renderSchedule()] *)
Definition renderSchedule (st : State) : outcome :=
  if absent (slot st) then Done st
  else
    match JSON_parse (default [] (slot st)) with
    | None => Thrown SyntaxError st
    | Some (JArr elements) =>
      match asEntries elements with
      | Some events =>
        Done (showGrid (gridHtml events (buildingValue st) (dateValue st)) st)
      | None => Unmodelled
      end
    | Some _ => Thrown TypeError st
    end.

Section WithHost.
Context (H : Host).

(** The selectors filled and shown, with the first option of each
    selected. *)
Definition showControls (events : list ScheduleEntry) (st : State) : State :=
  {| slot := slot st; statusText := statusText st;
     controlsDisplay := u16 "flex";
     replaceBtnDisplay := u16 "inline-block";
     scheduleHtml := scheduleHtml st;
     buildingSelectHtml := buildingOptionsHtml events;
     dateSelectHtml := dateOptionsHtml events;
     buildingValue := select_value H (buildingOptionsHtml events);
     dateValue := select_value H (dateOptionsHtml events);
     alerts := alerts st; console := console st |}.

(** [initSchedule()] *)
Definition initSchedule (st : State) : outcome :=
  if absent (slot st) then Done (resetView uploadMsg st)
  else
    match JSON_parse (default [] (slot st)) with
    | None =>
      Done (resetView uploadMsg (setSlot None (log corruptLog st)))
    | Some (JArr (e :: elements)) =>
      match asEntries (e :: elements) with
      | Some events => renderSchedule (showControls events st)
      | None => Unmodelled
      end
    | Some _ => Done (resetView noDataMsg st)
    end.

(** [localStorage.setItem('schedule', value)] *)
Definition setItem (value : jsstring) (st : State) : outcome :=
  if storage_accepts H value then Done (setSlot (Some value) st)
  else Thrown QuotaExceededError st.

(** The body of the [try] of the [onload] handler, for the bytes read
    from the file. *)
Definition tryBody (data : list N) (st : State) : outcome :=
  match XLSX_rows H data with
  | None => Thrown ReadError st
  | Some rows =>
    match eventsOf H rows with
    | None => Done (alert headerNotFoundMsg st)
    | Some events =>
      match setItem (JSON_stringify events) st with
      | Done st1 => initSchedule st1
      | o => o
      end
    end
  end.

(** The [onload] handler: the [try] with its [catch]. *)
Definition onload (data : list N) (st : State) : outcome :=
  match tryBody data st with
  | Thrown _ st' => Done (alert parseErrorMsg (log parseErrorLog st'))
  | o => o
  end.
End WithHost.

(** The click on the replace button, once confirmed. *)
Definition replaceClick (st : State) : State :=
  {| slot := None; statusText := uploadMsg;
     controlsDisplay := u16 "none";
     replaceBtnDisplay := u16 "none";
     scheduleHtml := [];
     buildingSelectHtml := buildingSelectHtml st;
     dateSelectHtml := dateSelectHtml st;
     buildingValue := buildingValue st; dateValue := dateValue st;
     alerts := alerts st; console := console st |}.

End App.

(** ** The service worker's [fetch] listener *)
Module ServiceWorker.
Import JS.

Definition CACHE_NAME : jsstring := u16 "schedule-pwa-v1".

Record Request := {
  method : jsstring;
  url : jsstring;
  mode : jsstring
}.

(** Cache storage: for each cache name, the responses stored by request
    URL (the requests the listener stores are GET requests). *)
Section Fetch.
Context {Response : Type}.
(** [new URL(u).origin], [location.origin], the absolute URL of a path
    of the worker's scope, the network ([None] when [fetch] rejects), and
    whether [cache.put] takes the pair (it rejects, for instance, a
    partial response). *)
Context (URL_origin : jsstring -> jsstring) (location_origin : jsstring)
        (resolve : jsstring -> jsstring)
        (network : Request -> option Response)
        (put_accepts : Request -> Response -> bool).

(** [caches.match(u)]: the first cache, in the order given, that holds
    a response for the URL. *)
Definition caches_match (order : list jsstring)
    (caches : gmap jsstring (gmap jsstring Response)) (u : jsstring)
  : option Response :=
  list_find (fun r : option Response => is_Some r)
            (map (fun name => caches !! name ≫= (.!! u)) order)
    ≫= snd.

(** [caches.open(name).then(cache => cache.put(request, response))] *)
Definition cache_put (name : jsstring) (request : Request) (r : Response)
    (caches : gmap jsstring (gmap jsstring Response))
  : gmap jsstring (gmap jsstring Response) :=
  if put_accepts request r
  then <[name := <[url request := r]> (default ∅ (caches !! name))]> caches
  else caches.

(** What the listener does with a request: [None] when it returns
    without [respondWith]; otherwise the response the promise settles
    to ([None] for [undefined]).  The second component is cache storage
    afterwards. *)
Definition onfetch (order : list jsstring) (request : Request)
    (caches : gmap jsstring (gmap jsstring Response))
  : option (option Response) * gmap jsstring (gmap jsstring Response) :=
  if negb (streq (method request) (u16 "GET")) then (None, caches)
  else
    match caches_match order caches (url request) with
    | Some cachedResponse => (Some (Some cachedResponse), caches)
    | None =>
      match network request with
      | Some response =>
        if streq (URL_origin (url request)) location_origin
        then (Some (Some response),
              cache_put CACHE_NAME request response caches)
        else (Some (Some response), caches)
      | None =>
        if streq (mode request) (u16 "navigate")
        then (Some (caches_match order caches (resolve (u16 "index.html"))),
              caches)
        else (Some None, caches)
      end
    end.
End Fetch.

(** The application shell, as listed for the [install] listener. *)
Definition ASSETS : list jsstring :=
  [u16 "."; u16 "index.html"; u16 "style.css"; u16 "script.js";
   u16 "manifest.json"; u16 "icon-192.png"; u16 "icon-512.png"].

Section Lifecycle.
Context {Response : Type}.
(** The absolute URL of a path of the worker's scope, and the response
    [cache.addAll] obtains for a URL: [None] when the fetch fails or the
    response is one it refuses (a status that is not ok). *)
Context (resolve : jsstring -> jsstring)
        (fetch_ok : jsstring -> option Response).

(** [caches.open(name)]: the cache is created when there is none. *)
Definition caches_open (name : jsstring)
    (caches : gmap jsstring (gmap jsstring Response))
  : gmap jsstring (gmap jsstring Response) :=
  match caches !! name with
  | Some _ => caches
  | None => <[name := ∅]> caches
  end.

(** [cache.addAll(urls)]: every response is obtained first, and the
    entries are written only when none is missing and no URL is given
    twice; [None] when the promise rejects. *)
Definition addAll (urls : list jsstring) (cache : gmap jsstring Response)
  : option (gmap jsstring Response) :=
  if bool_decide (NoDup (map resolve urls))
  then (fun responses =>
          foldl (fun c ur => <[ur.1 := ur.2]> c) cache
                (zip (map resolve urls) responses))
         <$> mapM (fun u => fetch_ok (resolve u)) urls
  else None.

(** The [install] listener: cache storage when the promise given to
    [waitUntil] has settled. *)
Definition oninstall (caches : gmap jsstring (gmap jsstring Response))
  : gmap jsstring (gmap jsstring Response) :=
  let opened := caches_open CACHE_NAME caches in
  match addAll ASSETS (default ∅ (opened !! CACHE_NAME)) with
  | Some cache => <[CACHE_NAME := cache]> opened
  | None => opened
  end.

(** The [activate] listener, for the [keys] that [caches.keys()] gave:
    every cache of another name is deleted. *)
Definition onactivate (keys : list jsstring)
    (caches : gmap jsstring (gmap jsstring Response))
  : gmap jsstring (gmap jsstring Response) :=
  foldr (fun key cs => if bool_decide (key = CACHE_NAME) then cs
                       else delete key cs)
        caches keys.
End Lifecycle.

End ServiceWorker.

(** ** Vocabulary of the statements: named hosts, pages and inputs, and the
       notions the properties are stated with *)
Module Spec.
Import JS Platform JSDate Ingest Json View App.

(** What [escapeHtml] makes of one code unit. *)
Definition escapeUnit (c : N) : jsstring :=
  if (c =? 38)%N then u16 "&amp;"
  else if (c =? 60)%N then u16 "&lt;"
  else if (c =? 62)%N then u16 "&gt;"
  else if (c =? 34)%N then u16 "&quot;"
  else if (c =? 39)%N then u16 "&#39;"
  else [c].

(** One of the four metacharacters that [escapeHtml] leaves nowhere. *)
Definition isMarkup (c : N) : bool :=
  ((c =? 60) || (c =? 62) || (c =? 34) || (c =? 39))%N.

(** The value of a run of decimal digits read after [a]. *)
Definition digitsValue (a : Z) (ds : jsstring) : Z :=
  fold_left (fun v c => v * 10 + (Z.of_N c - 48)) ds a.

(** A decimal digit. *)
Definition isDecimal (c : N) : Prop := (48 <= c <= 57)%N.

(** A host in the time zone [tzMinutes] minutes east of UTC whose
    [Date.parse] knows the date-only ISO form alone, whose workbook reader
    rejects every file and whose storage takes every value. *)
Definition plainHost (tzMinutes : Z) : Host :=
  {| LocalTZA := tzMinutes * 60000;
     Date_parse_impl := fun _ => None;
     Date_toString := fun _ => [];
     XLSX_rows := fun _ => None;
     storage_accepts := fun _ => true;
     select_value := fun _ => [] |}.

(** The host [H] moved to the time zone [tzMinutes] minutes east of UTC. *)
Definition inZone (tzMinutes : Z) (H : Host) : Host :=
  {| LocalTZA := tzMinutes * 60000;
     Date_parse_impl := Date_parse_impl H;
     Date_toString := Date_toString H;
     XLSX_rows := XLSX_rows H;
     storage_accepts := storage_accepts H;
     select_value := select_value H |}.

(** [YYYY-MM-DD] for a year, a month and a day of the month. *)
Definition canonicalDate (ymd : Z * Z * Z) : jsstring :=
  padStart0 4 (Number_toString ymd.1.1) ++ u16 "-"
    ++ padStart0 2 (Number_toString ymd.1.2) ++ u16 "-"
    ++ padStart0 2 (Number_toString ymd.2).

(** A calendar date of the proleptic Gregorian calendar. *)
Definition validDate (y m d : Z) : Prop :=
  1 <= m <= 12 /\ 1 <= d <= daysInMonth y m.

(** The label a header cell stands for in [headerMap], if any. *)
Definition labelOf (c : cell) : option jsstring :=
  match c with
  | CStr s =>
    if bool_decide (0 < length (trim s))%nat
       && negb (bool_decide (trim s = u16 "__proto__"))
    then Some (trim s) else None
  | _ => None
  end.

(** The entry a row after the header gives, if its date cell is truthy. *)
Definition rowEntry (H : Host) (headerMap : gmap jsstring nat)
    (row : list cell) : option ScheduleEntry :=
  match at_ headerMap row L_date with
  | Some rawDate =>
    if truthy (Some rawDate) then Some (entryOf H headerMap rawDate row)
    else None
  | None => None
  end.

(** A page that shows nothing, with [stored] in the slot. *)
Definition pageWith (stored : option jsstring) : State :=
  {| slot := stored; statusText := []; controlsDisplay := [];
     replaceBtnDisplay := []; scheduleHtml := [];
     buildingSelectHtml := []; dateSelectHtml := [];
     buildingValue := []; dateValue := [];
     alerts := []; console := [] |}.

(** An entry of building A on 2024-09-01. *)
Definition entryAt (r s subj grp : jsstring) : ScheduleEntry :=
  {| date := u16 "2024-09-01"; start := s; end_ := []; dayOfWeek := [];
     discipline := subj; type := []; group := grp; building := u16 "A";
     room := r; teacher := [] |}.

(** The value [JSON.parse] gives for the text of an event. *)
Definition entryJson (e : ScheduleEntry) : jsval :=
  JObj [ (u16 "date", JStr (date e)); (u16 "start", JStr (start e));
         (u16 "end", JStr (end_ e)); (u16 "dayOfWeek", JStr (dayOfWeek e));
         (u16 "discipline", JStr (discipline e)); (u16 "type", JStr (type e));
         (u16 "group", JStr (group e)); (u16 "building", JStr (building e));
         (u16 "room", JStr (room e)); (u16 "teacher", JStr (teacher e)) ].


(** ASCII code units that a stored date can hold: digits, [-], [N], [a]. *)
Definition isDateChar (c : N) : bool :=
  ((48 <=? c) && (c <=? 57) || (c =? 45) || (c =? 78) || (c =? 97))%N.

(** The nine text fields of an entry, the date apart. *)
Definition textFields (e : ScheduleEntry) : list jsstring :=
  [start e; end_ e; dayOfWeek e; discipline e; type e; group e; building e;
   room e; teacher e].

(** A code unit that [escapeHtml] leaves as it is. *)
Definition isPlain (c : N) : bool := negb (isMarkup c || (c =? 38)%N).

(** No white space at either end. *)
Definition noEdgeSpace (x : jsstring) : Prop :=
  (forall c r, x = c :: r -> isWhiteSpace c = false)
  /\ (forall c r, x = r ++ [c] -> isWhiteSpace c = false).

(** A host at UTC whose workbook reader gives [rows] for every file and
    whose storage takes every value. *)
Definition hostReading (rows : list (list cell)) : Host :=
  {| LocalTZA := 0;
     Date_parse_impl := fun _ => None;
     Date_toString := fun _ => [];
     XLSX_rows := fun _ => Some rows;
     storage_accepts := fun _ => true;
     select_value := fun _ => [] |}.

(** Strictly before, in the order of the default [sort]. *)
Definition strLt (a b : jsstring) : Prop := strltb a b = true.

(** The markup of an occupied cell that shows [ev]. *)
Definition occupiedHtml (ev : ScheduleEntry) : jsstring :=
  u16 "<td class=" ++ q ++ u16 "occupied" ++ q ++ u16 "><div class=" ++ q
    ++ u16 "subject" ++ q ++ u16 ">" ++ escapeHtml (discipline ev)
    ++ u16 "</div><div class=" ++ q ++ u16 "group" ++ q ++ u16 ">"
    ++ escapeHtml (group ev) ++ u16 "</div></td>".

(** An entry of room [r] that starts at [t]. *)
Definition sameSlot (r t : jsstring) (e : ScheduleEntry) : Prop :=
  room e = r /\ start e = t.

(** The install succeeds: the listed paths resolve to different URLs and
    each of them is fetched. *)
Definition installs {Response : Type} (resolve : jsstring -> jsstring)
    (fetch_ok : jsstring -> option Response) : Prop :=
  NoDup (map resolve ServiceWorker.ASSETS)
  /\ Forall (fun a => is_Some (fetch_ok (resolve a))) ServiceWorker.ASSETS.

(** The worker's scope in the examples, and a network that answers every
    request with the same response. *)
Definition underScope (path : jsstring) : jsstring :=
  u16 "https://app.example/" ++ path.

Definition always (r : nat) : jsstring -> option nat := fun _ => Some r.

(** A workbook of one sheet: a title row, the header, one row of data;
    and the entry that the row gives. *)
Definition sampleHeader : list cell :=
  [CStr L_date; CStr L_start; CStr L_building; CStr L_room; CStr L_discipline].

Definition sampleRow : list cell :=
  [CStr (u16 "01.09.2024"); CStr (u16 " 08:30 "); CStr (u16 "A"); CNum 101;
   CStr (u16 "Алгебра")].

Definition sampleRows : list (list cell) :=
  [[CStr (u16 "Расписание занятий")]; sampleHeader; sampleRow].

Definition sampleEntry : ScheduleEntry :=
  {| date := u16 "2024-09-01"; start := u16 "08:30"; end_ := [];
     dayOfWeek := []; discipline := u16 "Алгебра"; type := []; group := [];
     building := u16 "A"; room := u16 "101"; teacher := [] |}.

End Spec.

(** * Properties *)

(** ** Escaping and the markup of the grid *)
Module EscapeFacts.
Import JS Ingest View Spec.

Lemma replaceAll_app c r s t :
  replaceAll c r (s ++ t) = replaceAll c r s ++ replaceAll c r t.
Proof. unfold replaceAll. apply flat_map_app. Qed.

Lemma replaceAll_cons c r x s :
  replaceAll c r (x :: s) = (if (x =? c)%N then r else [x]) ++ replaceAll c r s.
Proof. reflexivity. Qed.

Ltac split_unit c :=
  repeat match goal with
         | |- context [(c =? ?k)%N] =>
           destruct (N.eqb_spec c k); [first [reflexivity | congruence | subst; discriminate]|]
         end.

(** The five replacements in sequence act on each code unit on its own:
    no replacement text holds a unit that a later replacement rewrites. *)
Lemma escapeHtml_units s : escapeHtml s = flat_map escapeUnit s.
Proof.
  induction s as [|c s IH]; [reflexivity|].
  change (flat_map escapeUnit (c :: s)) with (escapeUnit c ++ flat_map escapeUnit s).
  rewrite <- IH. unfold escapeHtml.
  rewrite (replaceAll_cons 38), !replaceAll_app. f_equal.
  unfold escapeUnit. split_unit c. cbn. split_unit c. cbn. split_unit c.
  cbn. split_unit c. cbn. split_unit c. reflexivity.
Qed.

Lemma escapeUnit_safe c : forallb (fun x => negb (isMarkup x)) (escapeUnit c) = true.
Proof.
  unfold escapeUnit. split_unit c. cbn. unfold isMarkup. split_unit c. reflexivity.
Qed.

(** The escaped text holds no [<], [>], double or single quote. *)
Lemma escapeHtml_no_markup s :
  forallb (fun x => negb (isMarkup x)) (escapeHtml s) = true.
Proof.
  rewrite escapeHtml_units.
  induction s as [|c s IH]; [reflexivity|].
  cbn [flat_map]. rewrite forallb_app, escapeUnit_safe, IH. reflexivity.
Qed.

(** Text without metacharacters is left as it is. *)
Lemma escapeHtml_plain s :
  forallb (fun x => negb (isMarkup x || (x =? 38)%N)) s = true -> escapeHtml s = s.
Proof.
  rewrite escapeHtml_units.
  induction s as [|c s IH]; [reflexivity|].
  cbn [forallb flat_map]. rewrite andb_true_iff. intros [Hc Hs].
  rewrite (IH Hs). unfold escapeUnit, isMarkup in *. split_unit c. reflexivity.
Qed.

(** The discipline [<script>] is shown as text. *)
Lemma escapeHtml_script : escapeHtml (u16 "<script>") = u16 "&lt;script&gt;".
Proof. vm_compute. reflexivity. Qed.

(** An occupied cell shows the discipline and the group escaped. *)
Lemma cellHtml_occupied dailyEvents time r ev :
  findEvent dailyEvents r time = Some ev ->
  cellHtml dailyEvents time r =
    u16 "<td class=" ++ q ++ u16 "occupied" ++ q ++ u16 "><div class=" ++ q
      ++ u16 "subject" ++ q ++ u16 ">" ++ escapeHtml (discipline ev)
      ++ u16 "</div><div class=" ++ q ++ u16 "group" ++ q ++ u16 ">"
      ++ escapeHtml (group ev) ++ u16 "</div></td>".
Proof. intros E. unfold cellHtml. rewrite E. reflexivity. Qed.

(** C1 (the code departs from it): grid rendering escapes the discipline
    and the group, but the room of a column header and the start time of a
    row are inserted as they are.  For one entry whose room and discipline
    are [<script>] and whose start is [<i>], the header cell holds the live
    element and the second cell of the row the live [<i>], while the
    discipline is shown as text. *)
Theorem grid_room_and_start_not_escaped :
  gridHtml [entryAt (u16 "<script>") (u16 "<i>") (u16 "<script>") (u16 "g")]
           (u16 "A") (u16 "2024-09-01")
  = u16 "<table class=" ++ q ++ u16 "schedule-table" ++ q
      ++ u16 "><thead><tr><th>Пара</th><th>Время</th><th><script></th></tr></thead><tbody>"
      ++ u16 "<tr><td>1</td><td><i></td><td class=" ++ q ++ u16 "occupied" ++ q
      ++ u16 "><div class=" ++ q ++ u16 "subject" ++ q ++ u16 ">&lt;script&gt;</div>"
      ++ u16 "<div class=" ++ q ++ u16 "group" ++ q ++ u16 ">g</div></td></tr>"
      ++ u16 "</tbody></table>".
Proof. vm_compute. reflexivity. Qed.

End EscapeFacts.

(** ** Numbers and their decimal text *)
Module NumberFacts.
Import JS Spec.

Lemma size_nat_bound n : (n < 2 ^ N.of_nat (N.size_nat n))%N.
Proof.
  destruct n as [|p]; [cbn; lia|]. cbn [N.size_nat].
  induction p as [p IH|p IH|].
  - cbn [Pos.size_nat]. rewrite Nat2N.inj_succ, N.pow_succ_r'. lia.
  - cbn [Pos.size_nat]. rewrite Nat2N.inj_succ, N.pow_succ_r'. lia.
  - cbn. lia.
Qed.

(** With fuel for every binary digit, [digitsOf] writes all the decimal
    digits of the number. *)
Lemma digitsOf_digits fuel n acc :
  (n < 2 ^ N.of_nat fuel)%N -> (0 < fuel)%nat ->
  exists ds, digitsOf fuel n acc = ds ++ acc
             /\ Forall isDecimal ds /\ ds <> []
             /\ forall a, digitsValue a ds = a * 10 ^ Z.of_nat (length ds) + Z.of_N n.
Proof.
  revert n acc. induction fuel as [|f IH]; intros n acc Hn Hf; [lia|].
  cbn [digitsOf]. destruct (N.ltb_spec n 10) as [Hlt|Hge].
  - exists [(48 + n mod 10)%N]. rewrite N.mod_small by exact Hlt.
    split; [reflexivity|]. split; [|split; [discriminate|]].
    + constructor; [unfold isDecimal; lia | constructor].
    + intros a. cbn. lia.
  - rewrite Nat2N.inj_succ, N.pow_succ_r' in Hn.
    destruct f as [|f'].
    { cbn in Hn. lia. }
    destruct (IH (n / 10)%N ((48 + n mod 10)%N :: acc)) as (ds & Hds & Hdec & Hne & Hval).
    { zify. Z.to_euclidean_division_equations. lia. }
    { lia. }
    exists (ds ++ [(48 + n mod 10)%N]).
    split; [rewrite Hds, <- app_assoc; reflexivity|].
    split; [|split].
    + apply Forall_app. split; [exact Hdec|].
      constructor; [|constructor]. unfold isDecimal.
      zify. Z.to_euclidean_division_equations. lia.
    + destruct ds; discriminate.
    + intros a. unfold digitsValue in *. rewrite fold_left_app, Hval. cbn [fold_left].
      rewrite length_app. cbn [length].
      replace (Z.of_nat (length ds + 1)) with (Z.succ (Z.of_nat (length ds))) by lia.
      rewrite Z.pow_succ_r by lia.
      zify. Z.to_euclidean_division_equations. lia.
Qed.

Lemma parseDigits_decimal ds a seen :
  Forall isDecimal ds ->
  parseDigits 10 ds a seen
  = if seen || negb (bool_decide (ds = [])) then Some (digitsValue a ds) else None.
Proof.
  intros Hd. revert a seen. induction Hd as [|c ds Hc Hd IH]; intros a seen.
  - cbn. destruct seen; reflexivity.
  - cbn [parseDigits]. unfold digitValue, isDecimal in *.
    destruct (N.leb_spec 48 c); [|lia]. destruct (N.leb_spec c 57); [|lia].
    cbn [andb]. destruct (Z.ltb_spec (Z.of_N c - 48) 10); [|lia].
    rewrite IH. cbn. rewrite orb_true_r. reflexivity.
Qed.

Lemma trimStart_decimal c ds : isDecimal c -> trimStart (c :: ds) = c :: ds.
Proof.
  intros Hc. cbn [trimStart]. unfold isDecimal in Hc.
  assert (isWhiteSpace c = false) as ->; [|reflexivity].
  unfold isWhiteSpace.
  repeat (apply orb_false_iff; split);
    first [apply N.eqb_neq; lia | apply andb_false_iff; first [left; apply N.leb_gt; lia | right; apply N.leb_gt; lia]].
Qed.

(** [toString] writes every digit: the text reads back as the number. *)
Lemma parseInt_Number_toString z : parseInt 10 (Number_toString z) = Some z.
Proof.
  unfold Number_toString.
  set (n := Z.to_N (Z.abs z)).
  destruct (digitsOf_digits (S (N.size_nat n)) n []) as (ds & Hds & Hdec & Hne & Hval).
  { rewrite Nat2N.inj_succ, N.pow_succ_r'. pose proof (size_nat_bound n). lia. }
  { lia. }
  rewrite Hds, app_nil_r.
  destruct ds as [|c ds]; [contradiction|].
  pose proof (Forall_inv Hdec) as Hc.
  assert (Hpd : parseDigits 10 (c :: ds) 0 false = Some (Z.of_N n)).
  { rewrite parseDigits_decimal by exact Hdec. cbn [orb negb].
    rewrite bool_decide_eq_false_2 by discriminate. cbn [negb].
    rewrite Hval; f_equal; lia. }
  unfold parseInt.
  destruct (Z.ltb_spec z 0).
  - cbn [trimStart]. change (isWhiteSpace 45) with false. cbv iota.
    change (10 =? 0) with false. cbv iota. rewrite Hpd. f_equal. subst n. lia.
  - rewrite trimStart_decimal by exact Hc.
    assert (Hs : c <> 45%N /\ c <> 43%N) by (unfold isDecimal in Hc; lia).
    destruct Hs as [H45 H43].
    replace (match c :: ds with
             | 45%N :: r => (-1, r)
             | 43%N :: r => (1, r)
             | _ => (1, c :: ds)
             end) with (1, c :: ds).
    2:{ assert (Hcases : (c = 48 \/ c = 49 \/ c = 50 \/ c = 51 \/ c = 52
                          \/ c = 53 \/ c = 54 \/ c = 55 \/ c = 56 \/ c = 57)%N)
          by (unfold isDecimal in Hc; lia).
        destruct Hcases as [->|[->|[->|[->|[->|[->|[->|[->|[->| ->]]]]]]]]];
          reflexivity. }
    change (10 =? 0) with false. cbv iota. rewrite Hpd. f_equal. subst n. lia.
Qed.

End NumberFacts.

(** ** The calendar and date normalization *)
Module DateFacts.
Import JS Platform JSDate Ingest Spec.

Lemma isLeapYear_spec y :
  isLeapYear y = true <-> (y mod 4 = 0 /\ (y mod 100 <> 0 \/ y mod 400 = 0)).
Proof.
  unfold isLeapYear.
  rewrite andb_true_iff, orb_true_iff, negb_true_iff, !Z.eqb_eq, Z.eqb_neq.
  tauto.
Qed.

Ltac div_lia := Z.to_euclidean_division_equations; lia.

(** The year of the era is recovered from the day of the era. *)
Lemma yoe_recover yoe doy :
  0 <= yoe <= 399 -> 0 <= doy <= 365 ->
  (doy = 365 -> (yoe + 1) mod 4 = 0 /\ ((yoe + 1) mod 100 <> 0 \/ yoe = 399)) ->
  let doe := yoe * 365 + yoe / 4 - yoe / 100 + doy in
  (doe - doe / 1460 + doe / 36524 - doe / 146096) / 365 = yoe
  /\ 0 <= doe < 146097.
Proof. intros Hy Hd Hl doe. subst doe. div_lia. Qed.

Ltac month_cases mp :=
  let Hc := fresh "Hc" in
  assert (Hc : mp = 0 \/ mp = 1 \/ mp = 2 \/ mp = 3 \/ mp = 4 \/ mp = 5
               \/ mp = 6 \/ mp = 7 \/ mp = 8 \/ mp = 9 \/ mp = 10 \/ mp = 11)
    by lia;
  destruct Hc as [Hc|[Hc|[Hc|[Hc|[Hc|[Hc|[Hc|[Hc|[Hc|[Hc|[Hc|Hc]]]]]]]]]]].

(** The month, counted from March, is recovered from the day of the year. *)
Lemma mp_recover mp d :
  0 <= mp <= 11 -> 1 <= d <= 31 ->
  (mp = 1 \/ mp = 3 \/ mp = 6 \/ mp = 8 -> d <= 30) ->
  (mp = 11 -> d <= 29) ->
  let doy := (153 * mp + 2) / 5 + d - 1 in
  (5 * doy + 2) / 153 = mp /\ 0 <= doy <= 365.
Proof.
  intros Hm Hd H30 H29 doy. subst doy.
  month_cases mp; subst mp; div_lia.
Qed.

Lemma daysInMonth_bounds y m d :
  1 <= m <= 12 -> 1 <= d <= daysInMonth y m ->
  d <= 31 /\ (m = 4 \/ m = 6 \/ m = 9 \/ m = 11 -> d <= 30)
  /\ (m = 2 -> d <= 29)
  /\ (m = 2 -> d = 29 -> y mod 4 = 0 /\ (y mod 100 <> 0 \/ y mod 400 = 0)).
Proof.
  intros Hm Hd. unfold daysInMonth in Hd.
  destruct (m =? 2) eqn:E2.
  - apply Z.eqb_eq in E2. destruct (isLeapYear y) eqn:El.
    + apply isLeapYear_spec in El. lia.
    + lia.
  - apply Z.eqb_neq in E2.
    destruct ((m =? 4) || (m =? 6) || (m =? 9) || (m =? 11)) eqn:E30.
    + lia.
    + rewrite !orb_false_iff, !Z.eqb_neq in E30. lia.
Qed.

(** The two calendar conversions are inverse on calendar dates. *)
Lemma civil_roundtrip y m d :
  validDate y m d -> civilFromDays (daysFromCivil y m d) = (y, m, d).
Proof.
  intros [Hm Hd].
  pose proof (daysInMonth_bounds y m d Hm Hd) as Hdim.
  unfold daysFromCivil.
  set (y' := if m <=? 2 then y - 1 else y).
  set (era := y' / 400).
  set (yoe := y' - era * 400).
  set (mp := (m + 9) mod 12).
  set (doy := (153 * mp + 2) / 5 + d - 1).
  set (doe := yoe * 365 + yoe / 4 - yoe / 100 + doy).
  assert (Hyoe : 0 <= yoe <= 399) by (subst yoe era; div_lia).
  assert (Hmp : 0 <= mp <= 11 /\ (m <= 2 -> mp = m + 9) /\ (3 <= m -> mp = m - 3))
    by (subst mp; div_lia).
  destruct (mp_recover mp d) as [Hmp' Hdoy]; try lia.
  fold doy in Hmp', Hdoy.
  destruct (yoe_recover yoe doy) as [Hy' Hdoe]; try lia.
  { intros E. assert (m = 2 /\ d = 29) as [-> ->].
    { subst doy. month_cases mp; rewrite Hc in E; div_lia. }
    subst yoe era y'. change (2 <=? 2) with true. cbv iota.
    destruct Hdim as (_ & _ & _ & Hl). specialize (Hl eq_refl eq_refl).
    clear - Hl. div_lia. }
  fold doe in Hy', Hdoe.
  unfold civilFromDays. cbv zeta.
  replace (era * 146097 + doe - 719468 + 719468) with (doe + era * 146097) by lia.
  rewrite Z.div_add by lia. rewrite (Z.div_small doe) by lia.
  rewrite Z.add_0_l.
  replace (doe + era * 146097 - era * 146097) with doe by lia.
  rewrite Hy'.
  replace (doe - (365 * yoe + yoe / 4 - yoe / 100)) with doy by (subst doe; lia).
  rewrite Hmp'.
  replace (doy - (153 * mp + 2) / 5 + 1) with d by (subst doy; lia).
  destruct (Z.ltb_spec mp 10).
  - assert (m = mp + 3) as <- by lia.
    destruct (Z.leb_spec m 2); [lia|].
    subst yoe y'. destruct (Z.leb_spec m 2); [lia|]. f_equal. f_equal. lia.
  - assert (m = mp - 9) as <- by lia.
    destruct (Z.leb_spec m 2); [|lia].
    subst yoe y'. destruct (Z.leb_spec m 2); [|lia]. f_equal. f_equal. lia.
Qed.

(** The year of the era and the day of the year of a day of the era. *)
Lemma yoe_of_doe doe :
  0 <= doe < 146097 ->
  let yoe := (doe - doe / 1460 + doe / 36524 - doe / 146096) / 365 in
  let doy := doe - (365 * yoe + yoe / 4 - yoe / 100) in
  0 <= yoe <= 399 /\ 0 <= doy <= 365
  /\ (doy = 365 -> (yoe + 1) mod 4 = 0 /\ ((yoe + 1) mod 100 <> 0 \/ yoe = 399)).
Proof.
  intros Hd yoe doy. subst doy yoe.
  div_lia.
Qed.

Lemma month_of_doy doy :
  0 <= doy <= 365 ->
  let mp := (5 * doy + 2) / 153 in
  let d := doy - (153 * mp + 2) / 5 + 1 in
  0 <= mp <= 11 /\ 1 <= d <= 31
  /\ (mp = 1 \/ mp = 3 \/ mp = 6 \/ mp = 8 -> d <= 30)
  /\ (mp = 11 -> d <= 29 /\ (d = 29 -> doy = 365)).
Proof. intros Hd mp d. subst d mp. div_lia. Qed.

(** Every day number is the day of a calendar date, the one that
    [civilFromDays] gives. *)
Lemma civilFromDays_inverse z :
  validDate (civilFromDays z).1.1 (civilFromDays z).1.2 (civilFromDays z).2
  /\ daysFromCivil (civilFromDays z).1.1 (civilFromDays z).1.2 (civilFromDays z).2 = z.
Proof.
  unfold civilFromDays.
  set (z' := z + 719468).
  set (era := z' / 146097).
  set (doe := z' - era * 146097).
  assert (Hdoe : 0 <= doe < 146097) by (subst doe era; div_lia).
  pose proof (yoe_of_doe doe Hdoe) as Hy. cbv zeta in Hy.
  set (yoe := (doe - doe / 1460 + doe / 36524 - doe / 146096) / 365) in *.
  set (doy := doe - (365 * yoe + yoe / 4 - yoe / 100)) in *.
  destruct Hy as (Hyoe & Hdoy & Hleap).
  pose proof (month_of_doy doy Hdoy) as Hm. cbv zeta in Hm.
  set (mp := (5 * doy + 2) / 153) in *.
  set (d := doy - (153 * mp + 2) / 5 + 1) in *.
  destruct Hm as (Hmp & Hd & H30 & H29).
  cbv zeta. cbn [fst snd].
  set (m := if mp <? 10 then mp + 3 else mp - 9).
  assert (Hmm : 1 <= m <= 12 /\ (mp < 10 -> m = mp + 3) /\ (10 <= mp -> m = mp - 9))
    by (subst m; destruct (Z.ltb_spec mp 10); lia).
  set (y := if m <=? 2 then yoe + era * 400 + 1 else yoe + era * 400).
  assert (Hyy : (m <= 2 -> y = yoe + era * 400 + 1) /\ (3 <= m -> y = yoe + era * 400))
    by (subst y; destruct (Z.leb_spec m 2); lia).
  split.
  - split; [lia|]. split; [lia|].
    unfold daysInMonth.
    destruct (Z.eqb_spec m 2) as [E2|E2].
    + assert (mp = 11) by lia.
      destruct (isLeapYear y) eqn:El; [lia|].
      assert (d <> 29); [|lia]. intros E29.
      assert (Hl : isLeapYear y = true); [|congruence].
      apply isLeapYear_spec.
      destruct H29 as [_ H29']; [assumption|]. specialize (H29' E29).
      specialize (Hleap H29').
      destruct Hyy as [Hy1 _]. rewrite Hy1 by lia.
      clear - Hleap Hyoe. div_lia.
    + destruct ((m =? 4) || (m =? 6) || (m =? 9) || (m =? 11)) eqn:E30; [|lia].
      rewrite !orb_true_iff, !Z.eqb_eq in E30. lia.
  - unfold daysFromCivil.
    assert (Hy' : (if m <=? 2 then y - 1 else y) = yoe + era * 400)
      by (destruct (Z.leb_spec m 2); lia).
    rewrite Hy'.
    replace ((yoe + era * 400) / 400) with era by div_lia.
    replace (yoe + era * 400 - era * 400) with yoe by lia.
    replace ((m + 9) mod 12) with mp by div_lia.
    cbv zeta. subst d doy doe z'. lia.
Qed.

(** The first day of a year has the day number that the language standard
    gives it (DayFromYear). *)
Lemma daysFromCivil_DayFromYear y :
  daysFromCivil y 1 1
  = 365 * (y - 1970) + (y - 1969) / 4 - (y - 1901) / 100 + (y - 1601) / 400.
Proof.
  unfold daysFromCivil. change (1 <=? 2) with true. cbv iota zeta.
  change ((1 + 9) mod 12) with 10. change ((153 * 10 + 2) / 5) with 306.
  div_lia.
Qed.

(** The epoch of the language's time values. *)
Lemma daysFromCivil_epoch : daysFromCivil 1970 1 1 = 0.
Proof. reflexivity. Qed.




(** [isoDate] shows the calendar date of the local day of the time value. *)
Lemma isoDateOf_time H t :
  isoDateOf H (Some t) = canonicalDate (civilFromDays ((t + LocalTZA H) / msPerDay)).
Proof.
  unfold isoDateOf, canonicalDate, getFullYear, getMonth, getDate, Day, LocalTime.
  cbn [fmap option_fmap option_map NaN_toString].
  destruct (civilFromDays _) as [[y m] d]. cbn [fst snd].
  replace (Z.succ (m - 1)) with m by lia. reflexivity.
Qed.

Lemma TimeClip_in_range t :
  -8640000000000000 <= t <= 8640000000000000 -> TimeClip t = Some t.
Proof.
  intros Ht. unfold TimeClip.
  destruct (Z.leb_spec (Z.abs t) 8640000000000000); [reflexivity | lia].
Qed.




Lemma digitsOf_lt10 f n acc :
  (n < 10)%N -> digitsOf (S f) n acc = (48 + n)%N :: acc.
Proof.
  intros Hn. cbn [digitsOf]. rewrite (N.mod_small n 10) by exact Hn.
  destruct (N.ltb_spec n 10); [reflexivity | lia].
Qed.

Lemma digitsOf_ge10 f n acc :
  (10 <= n)%N ->
  digitsOf (S f) n acc = digitsOf f (n / 10) ((48 + n mod 10)%N :: acc).
Proof.
  intros Hn. cbn [digitsOf]. destruct (N.ltb_spec n 10); [lia | reflexivity].
Qed.

Lemma size_nat_ge4 n : (8 <= n)%N -> exists f, N.size_nat n = S (S (S (S f))).
Proof.
  intros Hn. destruct n as [|p]; [lia|].
  destruct p as [[[p|p|]|[p|p|]|]|[[p|p|]|[p|p|]|]|]; cbn; try (exfalso; lia);
    destruct p; cbn; eauto.
Qed.

(** The digits of a number below 10000, as a function of the number. *)
Lemma Number_toString_4 z :
  0 <= z <= 9999 ->
  padStart0 4 (Number_toString z)
  = [Z.to_N (48 + z / 1000); Z.to_N (48 + z / 100 mod 10);
     Z.to_N (48 + z / 10 mod 10); Z.to_N (48 + z mod 10)].
Proof.
  intros Hz. unfold Number_toString.
  destruct (Z.ltb_spec z 0); [lia|].
  rewrite Z.abs_eq by lia.
  set (n := Z.to_N z).
  assert (Hn : z = Z.of_N n) by (subst n; lia). clearbody n. subst z.
  destruct (N.lt_ge_cases n 10) as [H1|H1].
  { rewrite digitsOf_lt10 by exact H1. cbn.
    repeat f_equal; div_lia. }
  destruct (size_nat_ge4 n ltac:(lia)) as [f ->].
  rewrite digitsOf_ge10 by exact H1.
  destruct (N.lt_ge_cases (n / 10) 10) as [H2|H2].
  { rewrite digitsOf_lt10 by exact H2. cbn.
    repeat f_equal; zify; div_lia. }
  rewrite digitsOf_ge10 by exact H2.
  destruct (N.lt_ge_cases (n / 10 / 10) 10) as [H3|H3].
  { rewrite digitsOf_lt10 by exact H3. cbn.
    repeat f_equal; zify; div_lia. }
  rewrite digitsOf_ge10 by exact H3.
  rewrite digitsOf_lt10 by (zify; div_lia). cbn.
  repeat f_equal; zify; div_lia.
Qed.

Lemma Number_toString_2 z :
  0 <= z <= 99 ->
  padStart0 2 (Number_toString z) = [Z.to_N (48 + z / 10); Z.to_N (48 + z mod 10)].
Proof.
  intros Hz. unfold Number_toString.
  destruct (Z.ltb_spec z 0); [lia|].
  rewrite Z.abs_eq by lia.
  set (n := Z.to_N z).
  assert (Hn : z = Z.of_N n) by (subst n; lia). clearbody n. subst z.
  destruct (N.lt_ge_cases n 10) as [H1|H1].
  { rewrite digitsOf_lt10 by exact H1. cbn. repeat f_equal; div_lia. }
  destruct (size_nat_ge4 n ltac:(lia)) as [f ->].
  rewrite digitsOf_ge10 by exact H1.
  rewrite digitsOf_lt10 by (zify; div_lia). cbn.
  repeat f_equal; zify; div_lia.
Qed.

Lemma digit_of_code k : 0 <= k <= 9 ->
  isDigit (Z.to_N (48 + k)) = true /\ digit (Z.to_N (48 + k)) = k.
Proof.
  intros Hk. unfold isDigit, digit. split; [|lia].
  apply andb_true_iff. split; apply N.leb_le; lia.
Qed.

(** [Date.parse] reads a canonical date as midnight UTC of that date. *)
Lemma parseIsoDate_canonical y m d :
  0 <= y <= 9999 -> validDate y m d ->
  parseIsoDate (canonicalDate (y, m, d)) = Some (daysFromCivil y m d * msPerDay).
Proof.
  intros Hy Hv. pose proof Hv as [Hm Hd].
  pose proof (daysInMonth_bounds _ _ _ Hm Hd) as (Hd31 & _).
  unfold canonicalDate. cbn [fst snd].
  rewrite Number_toString_4 by lia.
  rewrite !Number_toString_2 by lia.
  change (u16 "-") with [45%N]. cbn [app].
  cbv beta iota delta [parseIsoDate]. cbn [forallb].
  assert (Hdig : forall k, 0 <= k <= 9 ->
             isDigit (Z.to_N (48 + k)) = true /\ digit (Z.to_N (48 + k)) = k)
    by apply digit_of_code.
  destruct (Hdig (y / 1000)) as [-> ->]; [div_lia|].
  destruct (Hdig (y / 100 mod 10)) as [-> ->]; [div_lia|].
  destruct (Hdig (y / 10 mod 10)) as [-> ->]; [div_lia|].
  destruct (Hdig (y mod 10)) as [-> ->]; [div_lia|].
  destruct (Hdig (m / 10)) as [-> ->]; [div_lia|].
  destruct (Hdig (m mod 10)) as [-> ->]; [div_lia|].
  destruct (Hdig (d / 10)) as [-> ->]; [div_lia|].
  destruct (Hdig (d mod 10)) as [-> ->]; [div_lia|].
  cbn [forallb andb N.eqb Pos.eqb].
  replace (((y / 1000 * 10 + y / 100 mod 10) * 10 + y / 10 mod 10) * 10 + y mod 10)
    with y by div_lia.
  replace (m / 10 * 10 + m mod 10) with m by div_lia.
  replace (d / 10 * 10 + d mod 10) with d by div_lia.
  destruct Hm as [Hm1 Hm2], Hd as [Hd1 Hd2].
  apply Z.leb_le in Hm1, Hm2, Hd1, Hd2. rewrite Hm1, Hm2, Hd1, Hd2.
  reflexivity.
Qed.

(** In a zone at or east of UTC (by less than a day), normalization
    leaves a canonical date as it is. *)
Lemma isoDate_canonical_east H y m d :
  0 <= LocalTZA H < msPerDay -> 0 <= y <= 9999 -> validDate y m d ->
  isoDate H (CStr (canonicalDate (y, m, d))) = canonicalDate (y, m, d).
Proof.
  intros Htz Hy Hv. pose proof Hv as [Hm Hd].
  pose proof (daysInMonth_bounds _ _ _ Hm Hd) as (Hd31 & _).
  unfold isoDate, dateObj. cbn [toString].
  assert (Hsplit : split isDateSep (canonicalDate (y, m, d)) = [canonicalDate (y, m, d)]).
  { unfold canonicalDate. cbn [fst snd].
    rewrite Number_toString_4 by lia. rewrite !Number_toString_2 by lia.
    change (u16 "-") with [45%N]. cbn [app].
    assert (Hns : forall k, 0 <= k <= 9 -> isDateSep (Z.to_N (48 + k)) = false).
    { intros k Hk. unfold isDateSep. apply orb_false_iff.
      split; apply N.eqb_neq; lia. }
    cbn [split].
    rewrite !Hns by div_lia. reflexivity. }
  rewrite Hsplit. unfold Date_parse.
  rewrite parseIsoDate_canonical by assumption.
  rewrite isoDateOf_time.
  replace ((daysFromCivil y m d * msPerDay + LocalTZA H) / msPerDay)
    with (daysFromCivil y m d) by (unfold msPerDay in *; div_lia).
  rewrite civil_roundtrip by exact Hv. reflexivity.
Qed.

(** In a zone at or east of UTC (by less than a day), a numeric date cell
    gives the calendar date that many days after 1899-12-30. *)
Lemma isoDate_numeric_east H n :
  0 <= LocalTZA H < msPerDay -> -70000000 <= n <= 70000000 ->
  isoDate H (CNum n) = canonicalDate (civilFromDays (daysFromCivil 1899 12 30 + n)).
Proof.
  intros Htz Hn. unfold isoDate, dateObj.
  change (Date_UTC 1899 11 30) with (Some (-2209161600000)).
  change (daysFromCivil 1899 12 30) with (-25569).
  unfold msPerDay in *.
  rewrite TimeClip_in_range by lia.
  rewrite isoDateOf_time. f_equal. f_equal.
  unfold msPerDay. div_lia.
Qed.

(** The numeric cell 2 in the zone of UTC. *)
Lemma isoDate_numeric_2_utc H : isoDate (inZone 0 H) (CNum 2) = u16 "1900-01-01".
Proof. vm_compute. reflexivity. Qed.

(** C5 (the code departs from it): the epoch of a numeric date cell is
    built in UTC and the fields of the result are read in local time, so
    west of UTC the day before comes out.  Five hours west, the numeric
    cell 2 gives [1899-12-31], not [1900-01-01]. *)
Theorem isoDate_numeric_west H :
  isoDate (inZone (-300) H) (CNum 2) = u16 "1899-12-31".
Proof. vm_compute. reflexivity. Qed.

(** C4 (the code departs from it): a canonical date is parsed as midnight
    UTC and its fields are read in local time.  Five hours west of UTC the
    cell [2024-09-01] gives [2024-08-31]: normalization is not idempotent
    there. *)
Theorem isoDate_canonical_west H :
  isoDate (inZone (-300) H) (CStr (u16 "2024-09-01")) = u16 "2024-08-31".
Proof. vm_compute. reflexivity. Qed.

End DateFacts.

(** ** Ingestion: the header map and the emitted entries *)
Module IngestFacts.
Import JS Platform JSDate Ingest Spec.

Lemma headerRow_indexed_snoc (row : list cell) c :
  zip (seq 0 (length (row ++ [c]))) (row ++ [c])
  = zip (seq 0 (length row)) row ++ [(length row, c)].
Proof.
  rewrite length_app. cbn [length]. rewrite seq_app. cbn [seq].
  rewrite zip_with_app by (rewrite length_seq; reflexivity).
  reflexivity.
Qed.

Lemma headerMapOf_snoc row c :
  headerMapOf (row ++ [c]) = headerStep (headerMapOf row) (length row, c).
Proof.
  unfold headerMapOf. rewrite headerRow_indexed_snoc, fold_left_app. reflexivity.
Qed.

(** One step of the loop: a cell that stands for [label] overwrites its
    index, any other cell leaves it. *)
Lemma headerStep_lookup m i c label :
  headerStep m (i, c) !! label
  = if decide (labelOf c = Some label) then Some i else m !! label.
Proof.
  unfold headerStep, labelOf, setKey. cbn [fst snd].
  destruct c as [s| | |]; try (destruct (decide _); [discriminate | reflexivity]).
  destruct (bool_decide (0 < length (trim s))%nat); cbn [andb].
  - destruct (bool_decide (trim s = u16 "__proto__")); cbn [negb].
    + destruct (decide _); [discriminate | reflexivity].
    + destruct (decide (Some (trim s) = Some label)) as [E|E].
      * injection E as ->. apply lookup_insert_eq.
      * apply lookup_insert_ne. congruence.
  - destruct (decide _); [discriminate | reflexivity].
Qed.

(** C2 (as amended): the header map gives a label the index of its last
    occurrence in the header row, where a cell stands for the label that
    is its trimmed text (a cell that is no text, is blank, or reads
    [__proto__] stands for none). *)
Theorem headerMapOf_last_occurrence (headerRow : list cell) label i :
  headerMapOf headerRow !! label = Some i
  <-> (exists c, headerRow !! i = Some c /\ labelOf c = Some label)
      /\ (forall j c', headerRow !! j = Some c' -> labelOf c' = Some label ->
                       (j <= i)%nat).
Proof.
  revert i. induction headerRow as [|c row IH] using rev_ind; intros i.
  - unfold headerMapOf. cbn. rewrite lookup_empty. split; [discriminate|].
    intros [(c & Hc & _) _]. discriminate.
  - rewrite headerMapOf_snoc, headerStep_lookup.
    destruct (decide (labelOf c = Some label)) as [E|E].
    + split.
      * intros [= <-]. split.
        -- exists c. split; [apply list_lookup_middle; reflexivity | exact E].
        -- intros j c' Hj _. apply lookup_lt_Some in Hj.
           rewrite length_app in Hj. cbn in Hj. lia.
      * intros [(c0 & Hc0 & _) Hmax].
        apply lookup_lt_Some in Hc0. rewrite length_app in Hc0. cbn in Hc0.
        pose proof (Hmax (length row) c
                      (list_lookup_middle row [] c (length row) eq_refl) E).
        f_equal. lia.
    + rewrite IH. split.
      * intros [(c0 & Hc0 & Hl) Hmax]. split.
        -- exists c0. split; [|exact Hl].
           rewrite lookup_app_l by (eapply lookup_lt_Some; exact Hc0). exact Hc0.
        -- intros j c' Hj Hl'.
           destruct (decide (j < length row)%nat) as [Hlt|Hge].
           ++ rewrite lookup_app_l in Hj by exact Hlt. eauto.
           ++ rewrite lookup_app_r in Hj by lia.
              destruct (j - length row)%nat; [|discriminate].
              injection Hj as <-. contradiction.
      * intros [(c0 & Hc0 & Hl) Hmax].
        assert (Hlt : (i < length row)%nat).
        { destruct (decide (i < length row)%nat) as [Hlt|Hge]; [exact Hlt|].
          rewrite lookup_app_r in Hc0 by lia.
          destruct (i - length row)%nat; [|discriminate].
          injection Hc0 as <-. contradiction. }
        rewrite lookup_app_l in Hc0 by exact Hlt. split.
        -- exists c0. split; assumption.
        -- intros j c' Hj Hl'. apply (Hmax j c'); [|exact Hl'].
           rewrite lookup_app_l by (eapply lookup_lt_Some; exact Hj). exact Hj.
Qed.

(** C2 (as stated, refuted): with the date label in columns 0 and 2, the
    map gives it 2, not the index 0 of its first occurrence. *)
Lemma headerMapOf_repeated_label :
  headerMapOf [CStr L_date; CStr L_start; CStr L_date] !! L_date = Some 2%nat.
Proof. vm_compute. reflexivity. Qed.

(** [findIndex] gives the first row that passes. *)
Lemma findIndex_first {A} (p : A -> bool) l i :
  findIndex p l = Some i ->
  (exists x, l !! i = Some x /\ p x = true)
  /\ (forall j y, (j < i)%nat -> l !! j = Some y -> p y = false).
Proof.
  revert i. induction l as [|x l IH]; intros i; [discriminate|].
  cbn [findIndex]. destruct (p x) eqn:Ex.
  - intros [= <-]. split; [exists x; auto | intros; lia].
  - destruct (findIndex p l) as [k|]; [|discriminate].
    cbn. intros [= <-]. destruct (IH k eq_refl) as [Hk Hbefore]. split.
    + exact Hk.
    + intros [|j] y Hj; cbn; [congruence|]. apply Hbefore. lia.
Qed.

Section Rows.
Context (H : Host) (headerMap : gmap jsstring nat).

Lemma pushRow_rowEntry events row :
  pushRow H headerMap events row
  = events ++ option_list (rowEntry H headerMap row).
Proof.
  unfold pushRow, rowEntry.
  destruct (at_ headerMap row L_date) as [rawDate|];
    [|symmetry; apply app_nil_r].
  destruct (truthy (Some rawDate)); cbn;
    [reflexivity | symmetry; apply app_nil_r].
Qed.

(** The loop with [push] collects the entries of the rows, in order. *)
Lemma fold_pushRow (rows : list (list cell)) events :
  fold_left (pushRow H headerMap) rows events
  = events ++ omap (rowEntry H headerMap) rows.
Proof.
  revert events. induction rows as [|r rows IH]; intros events; cbn.
  - symmetry. apply app_nil_r.
  - rewrite IH, pushRow_rowEntry, <- app_assoc. f_equal.
    destruct (rowEntry H headerMap r); reflexivity.
Qed.

(** A row gives an entry exactly when its date cell is truthy. *)
Lemma rowEntry_truthy row :
  is_Some (rowEntry H headerMap row)
  <-> truthy (at_ headerMap row L_date) = true.
Proof.
  unfold rowEntry. destruct (at_ headerMap row L_date) as [c|].
  - destruct (truthy (Some c)); split; intros E;
      first [reflexivity | eexists; reflexivity | discriminate
            | destruct E; discriminate].
  - cbn. split; [intros [? ?]; discriminate | discriminate].
Qed.

(** The rows that the filter drops give no entry. *)
Lemma omap_rowEntry_filter (rows : list (list cell)) :
  omap (rowEntry H headerMap)
       (filter (fun r => isDataRow headerMap r) rows)
  = omap (rowEntry H headerMap) rows.
Proof.
  induction rows as [|r rows IH]; [reflexivity|].
  destruct (isDataRow headerMap r) eqn:E.
  - rewrite filter_cons_True by (rewrite E; exact I). cbn. rewrite IH.
    reflexivity.
  - rewrite filter_cons_False by (rewrite E; exact id). cbn. rewrite IH.
    assert (Hn : rowEntry H headerMap r = None).
    { destruct (rowEntry H headerMap r) eqn:Er; [|reflexivity].
      assert (Ht : truthy (at_ headerMap r L_date) = true)
        by (apply rowEntry_truthy; rewrite Er; eexists; reflexivity).
      unfold isDataRow in E. rewrite Ht, andb_true_r in E.
      apply bool_decide_eq_false in E.
      destruct r; [|cbn in E; lia].
      unfold at_ in Ht. destruct (headerMap !! L_date); discriminate. }
    rewrite Hn. reflexivity.
Qed.

(** As many entries as rows with a truthy date cell. *)
Lemma omap_rowEntry_length (rows : list (list cell)) :
  length (omap (rowEntry H headerMap) rows)
  = length (filter (fun r => truthy (at_ headerMap r L_date) = true) rows).
Proof.
  induction rows as [|r rows IH]; [reflexivity|].
  destruct (truthy (at_ headerMap r L_date)) eqn:E.
  - rewrite filter_cons_True by exact E.
    destruct (proj2 (rowEntry_truthy r) E) as [e He].
    cbn. rewrite He. cbn. rewrite IH. reflexivity.
  - rewrite filter_cons_False by (rewrite E; discriminate).
    cbn. destruct (rowEntry H headerMap r) eqn:Er.
    + assert (truthy (at_ headerMap r L_date) = true)
        by (apply rowEntry_truthy; rewrite Er; eexists; reflexivity).
      congruence.
    + exact IH.
Qed.
End Rows.

(** C7 (as amended): when a header row is found, ingestion emits one entry
    for each row after it whose date cell is truthy (not the empty text,
    not the number 0, not [false]) and none for the others, in the order of
    the rows. *)
Theorem eventsOf_rows H rows headerIndex :
  findIndex isHeaderRow rows = Some headerIndex ->
  eventsOf H rows
  = Some (omap (rowEntry H (headerMapOf (default [] (rows !! headerIndex))))
               (drop (S headerIndex) rows))
  /\ length (omap (rowEntry H (headerMapOf (default [] (rows !! headerIndex))))
                  (drop (S headerIndex) rows))
     = length (filter (fun r =>
                 truthy (at_ (headerMapOf (default [] (rows !! headerIndex)))
                             r L_date) = true)
               (drop (S headerIndex) rows)).
Proof.
  intros E. split.
  - unfold eventsOf. rewrite E. cbv zeta.
    rewrite fold_pushRow, omap_rowEntry_filter, Nat.add_1_r. reflexivity.
  - apply omap_rowEntry_length.
Qed.

(** Two data rows, the second with an empty date cell. *)
Lemma eventsOf_rows_witness :
  eventsOf (plainHost 0)
    [ [CStr L_date; CStr L_start];
      [CStr (u16 "01.09.2024"); CStr (u16 "09:00")];
      [CStr []; CStr (u16 "10:45")];
      [CNum 45537; CStr (u16 "10:45")] ]
  = Some [ entryOf (plainHost 0) (headerMapOf [CStr L_date; CStr L_start])
             (CStr (u16 "01.09.2024"))
             [CStr (u16 "01.09.2024"); CStr (u16 "09:00")];
           entryOf (plainHost 0) (headerMapOf [CStr L_date; CStr L_start])
             (CNum 45537) [CNum 45537; CStr (u16 "10:45")] ].
Proof.
  refine (eq_trans (proj1 (eventsOf_rows (plainHost 0) _ 0%nat _)) _).
  - vm_compute. reflexivity.
  - vm_compute. reflexivity.
Defined.

(** C7 (as stated, refuted): a row whose date cell holds the number 0 is
    not empty there, and no entry is emitted for it. *)
Lemma eventsOf_zero_date_skipped :
  eventsOf (plainHost 0)
    [ [CStr L_date; CStr L_start]; [CNum 0; CStr (u16 "09:00")] ] = Some []
  /\ at_ (headerMapOf [CStr L_date; CStr L_start])
         [CNum 0; CStr (u16 "09:00")] L_date = Some (CNum 0)
  /\ CNum 0 <> CStr [].
Proof.
  split; [vm_compute; reflexivity|]. split; [vm_compute; reflexivity|].
  discriminate.
Qed.

End IngestFacts.

(** ** The rows of the grid *)
Module ViewFacts.
Import JS Ingest View Spec.

(** *** [Array.from(new Set(arr))] *)

Lemma SetFrom_fold (l acc : list jsstring) :
  NoDup acc ->
  NoDup (fold_left (fun acc x => if bool_decide (x ∈ acc) then acc else acc ++ [x]) l acc)
  /\ forall x, x ∈ fold_left (fun acc x => if bool_decide (x ∈ acc) then acc else acc ++ [x]) l acc
               <-> x ∈ acc \/ x ∈ l.
Proof.
  revert acc. induction l as [|y l IH]; intros acc Hacc; cbn [fold_left].
  - split; [exact Hacc|]. intros x. rewrite elem_of_nil. tauto.
  - destruct (bool_decide_reflect (y ∈ acc)) as [Hy|Hy].
    + destruct (IH acc Hacc) as [Hnd Hel]. split; [exact Hnd|].
      intros x. rewrite Hel, elem_of_cons. split; [tauto|].
      intros [?|[->|?]]; auto.
    + assert (Hacc' : NoDup (acc ++ [y])).
      { apply NoDup_app. split; [exact Hacc|]. split.
        - intros x Hx Hx'. apply list_elem_of_singleton in Hx'. subst. contradiction.
        - apply NoDup_singleton. }
      destruct (IH _ Hacc') as [Hnd Hel]. split; [exact Hnd|].
      intros x. rewrite Hel, elem_of_app, list_elem_of_singleton, elem_of_cons. tauto.
Qed.

Lemma SetFrom_NoDup l : NoDup (SetFrom l).
Proof. apply SetFrom_fold. constructor. Qed.

Lemma SetFrom_elem l x : x ∈ SetFrom l <-> x ∈ l.
Proof.
  unfold SetFrom. destruct (SetFrom_fold l [] (NoDup_nil_2)) as [_ Hel].
  rewrite Hel, elem_of_nil. tauto.
Qed.

(** *** [sort] *)

Section SortFacts.
Context {A : Type} (cmp : A -> A -> option Z).

Lemma sortInsert_Permutation x l : sortInsert cmp x l ≡ₚ x :: l.
Proof.
  induction l as [|y l IH]; cbn [sortInsert]; [reflexivity|].
  destruct (comesAfter cmp x y); [|reflexivity].
  rewrite IH. apply Permutation_swap.
Qed.

(** Sorting rearranges, it neither drops nor repeats. *)
Lemma sortWith_Permutation l : sortWith cmp l ≡ₚ l.
Proof.
  induction l as [|x l IH]; [reflexivity|].
  change (sortWith cmp (x :: l)) with (sortInsert cmp x (sortWith cmp l)).
  rewrite sortInsert_Permutation, IH. reflexivity.
Qed.

(** An order that the comparator decides on the elements at hand. *)
Context (le : A -> A -> Prop) (ok : A -> Prop).
Context (le_trans : forall x y z, le x y -> le y z -> le x z).
Context (le_cmp : forall x y, ok x -> ok y ->
                    if comesAfter cmp x y then le y x else le x y).

Lemma sortInsert_sorted x l :
  ok x -> Forall ok l -> StronglySorted le l ->
  StronglySorted le (sortInsert cmp x l).
Proof.
  intros Hx Hok Hs. induction Hs as [|y l Hs IH Hy]; cbn [sortInsert].
  - repeat constructor.
  - apply Forall_cons in Hok as [Hoky Hokl].
    pose proof (le_cmp x y Hx Hoky) as Hc.
    destruct (comesAfter cmp x y).
    + constructor; [apply IH; exact Hokl|].
      rewrite sortInsert_Permutation. constructor; assumption.
    + constructor; [constructor; assumption|].
      constructor; [exact Hc|].
      eapply Forall_impl; [exact Hy|]. intros z Hz. eapply le_trans; eassumption.
Qed.

Lemma sortWith_sorted l :
  Forall ok l -> StronglySorted le (sortWith cmp l).
Proof.
  induction l as [|x l IH]; intros Hok; [constructor|].
  change (sortWith cmp (x :: l)) with (sortInsert cmp x (sortWith cmp l)).
  apply Forall_cons in Hok as [Hx Hl].
  apply sortInsert_sorted; [exact Hx| |apply IH; exact Hl].
  rewrite sortWith_Permutation. exact Hl.
Qed.
End SortFacts.

(** *** Start times *)



(** Minutes since midnight, not text: 9:00 is before 10:00. *)
Lemma minutes_not_lexicographic :
  timesOf [entryAt (u16 "101") (u16 "10:00") [] [];
           entryAt (u16 "101") (u16 "9:00") [] []]
  = [u16 "9:00"; u16 "10:00"]
  /\ sortStrings [u16 "10:00"; u16 "9:00"] = [u16 "10:00"; u16 "9:00"].
Proof. split; vm_compute; reflexivity. Qed.



(** The same grid: the row of 09:00 is labelled 1, the row of 10:45 is
    labelled 2. *)
Lemma grid_rows_labels :
  timesOf (dailyEventsOf
       [entryAt (u16 "205") (u16 "10:45") (u16 "x") (u16 "g");
        entryAt (u16 "101") (u16 "09:00") (u16 "y") (u16 "g")]
       (u16 "A") (u16 "2024-09-01"))
  = [u16 "09:00"; u16 "10:45"]
  /\ rowHtml [] [] 0 (u16 "09:00") = u16 "<tr><td>1</td><td>09:00</td></tr>"
  /\ rowHtml [] [] 1 (u16 "10:45") = u16 "<tr><td>2</td><td>10:45</td></tr>".
Proof. repeat split; vm_compute; reflexivity. Qed.

End ViewFacts.

(** ** The service worker *)
Module WorkerFacts.
Import JS ServiceWorker.

Section Fetch.
Context {Response : Type}.
Context (URL_origin : jsstring -> jsstring) (location_origin : jsstring)
        (resolve : jsstring -> jsstring)
        (network : Request -> option Response)
        (put_accepts : Request -> Response -> bool).

(** A request that is not a GET request leaves cache storage as it is:
    the listener returns at once. *)
Lemma onfetch_not_GET (order : list jsstring) (request : Request)
    (caches : gmap jsstring (gmap jsstring Response)) :
  method request <> u16 "GET" ->
  onfetch URL_origin location_origin resolve network put_accepts
          order request caches = (None, caches).
Proof.
  intros Hm. unfold onfetch, streq.
  rewrite bool_decide_eq_false_2 by exact Hm. reflexivity.
Qed.

(** A request to another origin leaves cache storage as it is. *)
Lemma onfetch_cross_origin (order : list jsstring) (request : Request)
    (caches : gmap jsstring (gmap jsstring Response)) :
  URL_origin (url request) <> location_origin ->
  (onfetch URL_origin location_origin resolve network put_accepts
           order request caches).2 = caches.
Proof.
  intros Ho. unfold onfetch, streq.
  rewrite (bool_decide_eq_false_2 (URL_origin (url request) = location_origin))
    by exact Ho.
  destruct (negb _); [reflexivity|].
  destruct (caches_match _ _ _); [reflexivity|].
  destruct (network request); [reflexivity|].
  destruct (bool_decide _); reflexivity.
Qed.

(** C10: the [fetch] listener changes cache storage only for a GET
    request whose URL has the origin of the application. *)
Theorem onfetch_cache_change (order : list jsstring) (request : Request)
    (caches : gmap jsstring (gmap jsstring Response)) :
  (onfetch URL_origin location_origin resolve network put_accepts
           order request caches).2 <> caches ->
  method request = u16 "GET"
  /\ URL_origin (url request) = location_origin.
Proof.
  intros Hc. split.
  - destruct (decide (method request = u16 "GET")) as [E|E]; [exact E|].
    rewrite onfetch_not_GET in Hc by exact E. contradiction.
  - destruct (decide (URL_origin (url request) = location_origin)) as [E|E];
      [exact E|].
    rewrite onfetch_cross_origin in Hc by exact E. contradiction.
Qed.

(** What is written is the network's response, under the request's URL,
    in the cache of the current name. *)
Lemma onfetch_cache_written (order : list jsstring) (request : Request)
    (caches : gmap jsstring (gmap jsstring Response)) :
  (onfetch URL_origin location_origin resolve network put_accepts
           order request caches).2 <> caches ->
  exists response,
    network request = Some response
    /\ (onfetch URL_origin location_origin resolve network put_accepts
                order request caches).2
       = <[CACHE_NAME := <[url request := response]>
                           (default ∅ (caches !! CACHE_NAME))]> caches.
Proof.
  unfold onfetch. destruct (negb _); [contradiction|].
  destruct (caches_match _ _ _); [contradiction|].
  destruct (network request) as [response|].
  - destruct (streq _ _); [|contradiction].
    unfold cache_put. destruct (put_accepts request response); [|contradiction].
    intros _. exists response. split; reflexivity.
  - destruct (streq _ _); contradiction.
Qed.
End Fetch.

(** A first GET request for the page's own script, answered by the
    network, is stored in the empty cache storage. *)
Lemma onfetch_cache_change_witness :
  u16 "GET" = u16 "GET" /\ u16 "https://app.example" = u16 "https://app.example".
Proof.
  refine (onfetch_cache_change (Response := nat)
            (fun _ => u16 "https://app.example") (u16 "https://app.example")
            id (fun _ => Some 7%nat) (fun _ _ => true) []
            {| method := u16 "GET"; url := u16 "https://app.example/script.js";
               mode := u16 "no-cors" |} ∅ _).
  intros E. apply (f_equal (fun m => m !! CACHE_NAME)) in E.
  vm_compute in E. discriminate.
Defined.

End WorkerFacts.

(** ** [JSON.parse] after [JSON.stringify] *)
Module JsonFacts.
Import JS Platform JSDate Ingest Json Spec.

Lemma hexValue_hexDigit n : (n < 16)%N -> hexValue (hexDigit n) = Some n.
Proof.
  intros Hn. unfold hexDigit, hexValue.
  destruct (N.ltb_spec n 10).
  - replace ((48 <=? 48 + n) && (48 + n <=? 57))%N with true
      by (symmetry; apply andb_true_iff; split; apply N.leb_le; lia).
    f_equal. lia.
  - replace ((48 <=? 87 + n) && (87 + n <=? 57))%N with false
      by (symmetry; apply andb_false_iff; right; apply N.leb_gt; lia).
    replace ((97 <=? 87 + n) && (87 + n <=? 102))%N with true
      by (symmetry; apply andb_true_iff; split; apply N.leb_le; lia).
    f_equal. lia.
Qed.

Ltac Ndiv_lia := zify; Z.to_euclidean_division_equations; lia.

(** A [\uXXXX] escape is read back as the unit it was written for. *)
Lemma parseString_unicodeEscape c rest :
  (c < 65536)%N ->
  parseString (unicodeEscape c ++ rest)
  = prod_map (cons c) id <$> parseString rest.
Proof.
  intros Hc. unfold unicodeEscape. cbn [app parseString].
  change (92 =? 34)%N with false. change (92 =? 92)%N with true.
  change (117 =? 117)%N with true. cbv iota.
  unfold hex4.
  rewrite !hexValue_hexDigit by Ndiv_lia.
  replace ((((c / 4096 * 16 + c / 256 mod 16) * 16 + c / 16 mod 16) * 16 + c mod 16)%N)
    with c by Ndiv_lia.
  reflexivity.
Qed.

Lemma parseString_plain c rest :
  c <> 34%N -> c <> 92%N -> (32 <= c)%N ->
  parseString (c :: rest) = prod_map (cons c) id <$> parseString rest.
Proof.
  intros H1 H2 H3. cbn [parseString].
  destruct (N.eqb_spec c 34); [contradiction|].
  destruct (N.eqb_spec c 92); [contradiction|].
  destruct (N.ltb_spec c 32); [lia|]. reflexivity.
Qed.

Lemma parseString_escaped e x rest :
  escapeChar e = Some x -> e <> 117%N ->
  parseString (92%N :: e :: rest) = prod_map (cons x) id <$> parseString rest.
Proof.
  intros He Hu. cbn [parseString].
  change (92 =? 34)%N with false. change (92 =? 92)%N with true. cbv iota.
  destruct (N.eqb_spec e 117); [contradiction|]. rewrite He. reflexivity.
Qed.

(** A quoted string is read back as the string. *)
Lemma parseString_quoteChars s rest :
  parseString (quoteChars s ++ 34%N :: rest) = Some (s, rest).
Proof.
  remember (length s) as n eqn:Hn.
  revert s Hn. induction n as [n IH] using lt_wf_ind. intros s Hn.
  destruct s as [|c r]; [reflexivity|].
  assert (IHr : parseString (quoteChars r ++ 34%N :: rest) = Some (r, rest))
    by (apply (IH (length r)); [subst n; cbn; lia | reflexivity]).
  cbn [quoteChars].
  destruct (N.eqb_spec c 34) as [->|N34].
  { cbn [app]. rewrite (parseString_escaped 34 34) by (reflexivity || discriminate).
    rewrite IHr. reflexivity. }
  destruct (N.eqb_spec c 92) as [->|N92].
  { cbn [app]. rewrite (parseString_escaped 92 92) by (reflexivity || discriminate).
    rewrite IHr. reflexivity. }
  destruct (N.eqb_spec c 8) as [->|N8].
  { cbn [app]. rewrite (parseString_escaped 98 8) by (reflexivity || discriminate).
    rewrite IHr. reflexivity. }
  destruct (N.eqb_spec c 12) as [->|N12].
  { cbn [app]. rewrite (parseString_escaped 102 12) by (reflexivity || discriminate).
    rewrite IHr. reflexivity. }
  destruct (N.eqb_spec c 10) as [->|N10].
  { cbn [app]. rewrite (parseString_escaped 110 10) by (reflexivity || discriminate).
    rewrite IHr. reflexivity. }
  destruct (N.eqb_spec c 13) as [->|N13].
  { cbn [app]. rewrite (parseString_escaped 114 13) by (reflexivity || discriminate).
    rewrite IHr. reflexivity. }
  destruct (N.eqb_spec c 9) as [->|N9].
  { cbn [app]. rewrite (parseString_escaped 116 9) by (reflexivity || discriminate).
    rewrite IHr. reflexivity. }
  destruct (N.ltb_spec c 32) as [L32|G32].
  { rewrite <- app_assoc, parseString_unicodeEscape by lia.
    rewrite IHr. reflexivity. }
  unfold isHighSurrogate, isLowSurrogate.
  destruct ((55296 <=? c) && (c <=? 56319))%N eqn:Hhi.
  { apply andb_true_iff in Hhi as [Hh1%N.leb_le Hh2%N.leb_le].
    destruct r as [|c2 r2].
    - rewrite parseString_unicodeEscape by lia. cbn. reflexivity.
    - destruct ((56320 <=? c2) && (c2 <=? 57343))%N eqn:Hlo.
      + apply andb_true_iff in Hlo as [Hl1%N.leb_le Hl2%N.leb_le].
        cbn [app]. rewrite !parseString_plain by lia.
        rewrite (IH (length r2)); [reflexivity | subst n; cbn; lia | reflexivity].
      + rewrite <- app_assoc, parseString_unicodeEscape by lia.
        rewrite IHr. reflexivity. }
  destruct ((56320 <=? c) && (c <=? 57343))%N eqn:Hlo.
  { apply andb_true_iff in Hlo as [Hl1%N.leb_le Hl2%N.leb_le].
    rewrite <- app_assoc, parseString_unicodeEscape by lia.
    rewrite IHr. reflexivity. }
  cbn [app]. rewrite parseString_plain by assumption.
  rewrite IHr. reflexivity.
Qed.

Lemma skipWs_cons c r : isJsonWs c = false -> skipWs (c :: r) = c :: r.
Proof. intros Hc. cbn [skipWs]. rewrite Hc. reflexivity. Qed.

Lemma parseValue_quote f s rest :
  parseValue (S f) (quote s ++ rest) = Some (JStr s, rest).
Proof.
  unfold quote. cbn [app parseValue]. rewrite <- app_assoc. cbn [app].
  rewrite skipWs_cons by reflexivity.
  change (34 =? 34)%N with true. cbv iota.
  rewrite parseString_quoteChars. reflexivity.
Qed.

(** One member followed by a comma or the closing brace. *)
Lemma parseMembers_member f k v c tail :
  isJsonWs c = false ->
  parseMembers (S (S f)) (member k v ++ c :: tail)
  = if (c =? 44)%N then prod_map (cons (k, JStr v)) id <$> parseMembers (S f) tail
    else if (c =? 125)%N then Some ([(k, JStr v)], tail)
    else None.
Proof.
  intros Hc. unfold member. unfold quote at 1.
  cbn [app parseMembers]. rewrite <- !app_assoc. cbn [app].
  rewrite skipWs_cons by reflexivity.
  change (34 =? 34)%N with true. cbv iota.
  rewrite parseString_quoteChars.
  rewrite skipWs_cons by reflexivity.
  change (58 =? 58)%N with true. cbv iota.
  rewrite parseValue_quote.
  rewrite skipWs_cons by exact Hc. reflexivity.
Qed.

Lemma skipWs_member k v tail :
  skipWs (member k v ++ tail) = member k v ++ tail
  /\ exists t, member k v ++ tail = 34%N :: t.
Proof.
  unfold member, quote. cbn [app]. split; [|eexists; reflexivity].
  apply skipWs_cons. reflexivity.
Qed.

Lemma parseValue_object f txt t :
  skipWs txt = 34%N :: t ->
  parseValue (S f) (123%N :: txt) = prod_map JObj id <$> parseMembers f txt.
Proof.
  intros Ht. cbn [parseValue]. rewrite skipWs_cons by reflexivity.
  change (123 =? 34)%N with false. change (123 =? 91)%N with false.
  change (123 =? 123)%N with true. cbv iota.
  rewrite Ht. change (34 =? 125)%N with false. cbv iota. reflexivity.
Qed.

(** The text of an event is read back as its value. *)
Lemma parseValue_stringifyEntry f e rest :
  parseValue (12 + f) (stringifyEntry e ++ rest) = Some (entryJson e, rest).
Proof.
  unfold stringifyEntry. cbn [join Nat.add].
  repeat (rewrite <- app_assoc || rewrite <- app_comm_cons). cbn [app].
  destruct (skipWs_member (u16 "date") (date e)
    ([44%N] ++ member (u16 "start") (start e) ++ [44%N]
      ++ member (u16 "end") (end_ e) ++ [44%N]
      ++ member (u16 "dayOfWeek") (dayOfWeek e) ++ [44%N]
      ++ member (u16 "discipline") (discipline e) ++ [44%N]
      ++ member (u16 "type") (type e) ++ [44%N]
      ++ member (u16 "group") (group e) ++ [44%N]
      ++ member (u16 "building") (building e) ++ [44%N]
      ++ member (u16 "room") (room e) ++ [44%N]
      ++ member (u16 "teacher") (teacher e) ++ 125%N :: rest)) as [Hs [t Ht]].
  cbn [app] in Hs, Ht.
  rewrite (parseValue_object _ _ t) by (rewrite Hs; exact Ht).
  do 9 (rewrite parseMembers_member by reflexivity;
        change (44 =? 44)%N with true; cbv iota).
  rewrite parseMembers_member by reflexivity.
  change (125 =? 44)%N with false. change (125 =? 125)%N with true. cbv iota.
  reflexivity.
Qed.

Lemma stringifyEntry_head e rest :
  exists t, stringifyEntry e ++ rest = 123%N :: t.
Proof. unfold stringifyEntry. cbn [app]. eexists. reflexivity. Qed.

Lemma parseValue_array f txt x t :
  skipWs txt = x :: t -> x <> 93%N ->
  parseValue (S f) (91%N :: txt) = prod_map JArr id <$> parseElements f txt.
Proof.
  intros Ht Hx. cbn [parseValue]. rewrite skipWs_cons by reflexivity.
  change (91 =? 34)%N with false. change (91 =? 91)%N with true. cbv iota.
  rewrite Ht. destruct (N.eqb_spec x 93); [contradiction|]. reflexivity.
Qed.

(** The texts of the events, joined by commas and closed by a bracket,
    are read back as their values. *)
Lemma parseElements_entries events e f rest :
  parseElements (13 + length events + f)
    (join [44%N] (map stringifyEntry (e :: events)) ++ 93%N :: rest)
  = Some (map entryJson (e :: events), rest).
Proof.
  revert e f. induction events as [|e2 events IH]; intros e f.
  - cbn [map join length Nat.add parseElements].
    rewrite (parseValue_stringifyEntry f).
    rewrite skipWs_cons by reflexivity.
    change (93 =? 44)%N with false. change (93 =? 93)%N with true. reflexivity.
  - change (join [44%N] (map stringifyEntry (e :: e2 :: events)))
      with (stringifyEntry e ++ [44%N] ++ join [44%N] (map stringifyEntry (e2 :: events))).
    rewrite <- !app_assoc. cbn [app].
    change (13 + length (e2 :: events) + f)%nat
      with (S (12 + (S (length events + f))))%nat.
    cbn [parseElements].
    rewrite (parseValue_stringifyEntry (S (length events + f))).
    rewrite skipWs_cons by reflexivity.
    change (44 =? 44)%N with true. cbv iota.
    change (12 + S (length events + f))%nat with (13 + length events + f)%nat.
    rewrite IH. reflexivity.
Qed.

Lemma stringifyEntry_length e : (20 <= length (stringifyEntry e))%nat.
Proof.
  unfold stringifyEntry, member, quote. cbn [join].
  rewrite length_cons, !length_app. cbn [length]. lia.
Qed.

Lemma join_entries_length (events : list ScheduleEntry) :
  (20 * length events <= length (join [44%N] (map stringifyEntry events)))%nat.
Proof.
  induction events as [|e [|e2 events] IH]; [cbn; lia| |].
  - cbn [map join length]. pose proof (stringifyEntry_length e). lia.
  - change (join [44%N] (map stringifyEntry (e :: e2 :: events)))
      with (stringifyEntry e ++ [44%N] ++ join [44%N] (map stringifyEntry (e2 :: events))).
    rewrite !length_app. pose proof (stringifyEntry_length e).
    cbn [length] in *. lia.
Qed.

Lemma asEntry_entryJson e : asEntry (entryJson e) = Some e.
Proof. destruct e. vm_compute. reflexivity. Qed.

Lemma asEntries_entryJson events : asEntries (map entryJson events) = Some events.
Proof.
  unfold asEntries. induction events as [|e events IH]; [reflexivity|].
  cbn [map mapM]. rewrite asEntry_entryJson. cbn. rewrite IH. reflexivity.
Qed.

(** [JSON.parse] reads back what [JSON.stringify] wrote for the events. *)
Lemma JSON_parse_stringify events :
  JSON_parse (JSON_stringify events) = Some (JArr (map entryJson events)).
Proof.
  destruct events as [|e events]; [vm_compute; reflexivity|].
  unfold JSON_parse, JSON_stringify.
  pose proof (join_entries_length (e :: events)) as Hlen.
  set (txt := join [44%N] (map stringifyEntry (e :: events))) in *.
  assert (Hf : exists f, (2 * length (91%N :: txt ++ [93%N]) + 2
                          = S (13 + length events + f))%nat).
  { exists (2 * length (91%N :: txt ++ [93%N]) + 2 - S (13 + length events))%nat.
    rewrite length_cons, length_app in *. cbn [length] in *. lia. }
  destruct Hf as [f ->].
  assert (Hhead : exists t, txt ++ [93%N] = 123%N :: t).
  { subst txt. destruct events as [|e2 events].
    - cbn [map join]. apply stringifyEntry_head.
    - change (join [44%N] (map stringifyEntry (e :: e2 :: events)))
        with (stringifyEntry e ++ [44%N] ++ join [44%N] (map stringifyEntry (e2 :: events))).
      rewrite <- app_assoc. apply stringifyEntry_head. }
  destruct Hhead as [t Ht].
  rewrite (parseValue_array _ _ 123%N t);
    [|rewrite Ht; apply skipWs_cons; reflexivity|discriminate].
  subst txt. rewrite parseElements_entries. reflexivity.
Qed.

Lemma JSON_stringify_not_empty events : JSON_stringify events <> [].
Proof. unfold JSON_stringify. discriminate. Qed.

End JsonFacts.

(** ** The fuel of the JSON parser *)
Module JsonFuel.
Import JS Json.

Lemma skipWs_length s : (length (skipWs s) <= length s)%nat.
Proof.
  induction s as [|c r IH]; [reflexivity|]. cbn [skipWs].
  destruct (isJsonWs c); cbn [length]; lia.
Qed.

Lemma skipWs_cons_length s c r :
  skipWs s = c :: r -> (length r < length s)%nat.
Proof.
  intros E. pose proof (skipWs_length s) as Hl. rewrite E in Hl. cbn in Hl. lia.
Qed.

Lemma parseString_length_le n s k r :
  (length s <= n)%nat -> parseString s = Some (k, r) -> (length r < length s)%nat.
Proof.
  revert s k r. induction n as [|n IH]; intros s k r Hn.
  { destruct s; [discriminate | cbn in Hn; lia]. }
  destruct s as [|c s1]; [discriminate|]. cbn [parseString]. cbn [length] in *.
  destruct (c =? 34)%N.
  { intros [= <- <-]. lia. }
  destruct (c =? 92)%N.
  { destruct s1 as [|e s2]; [discriminate|].
    destruct (e =? 117)%N.
    - destruct s2 as [|a [|b [|c' [|d s3]]]]; try discriminate.
      destruct (hex4 a b c' d); [|discriminate].
      destruct (parseString s3) as [[k' r']|] eqn:E; [|discriminate].
      intros [= <- <-]. apply IH in E; cbn [length] in *; lia.
    - destruct (escapeChar e); [|discriminate].
      destruct (parseString s2) as [[k' r']|] eqn:E; [|discriminate].
      intros [= <- <-]. apply IH in E; cbn [length] in *; lia. }
  destruct (c <? 32)%N; [discriminate|].
  destruct (parseString s1) as [[k' r']|] eqn:E; [|discriminate].
  intros [= <- <-]. apply IH in E; lia.
Qed.

Lemma parseString_length s k r :
  parseString s = Some (k, r) -> (length r < length s)%nat.
Proof. apply (parseString_length_le (length s)). reflexivity. Qed.

Lemma spanDigits_length s : (length (spanDigits s).2 <= length s)%nat.
Proof.
  induction s as [|c r IH]; [reflexivity|]. cbn [spanDigits].
  destruct (isJsonDigit c); [|reflexivity].
  destruct (spanDigits r). cbn in *. lia.
Qed.

Lemma parseNumber_length s t r :
  parseNumber s = Some (t, r) -> (length r <= length s)%nat.
Proof.
  unfold parseNumber.
  destruct (match s with
            | [] => ([], s)
            | c :: r0 => if (c =? 45)%N then ([c], r0) else ([], s)
            end) as [sign s1] eqn:Es.
  assert (H1 : (length s1 <= length s)%nat).
  { destruct s as [|c r0]; [injection Es as <- <-; reflexivity|].
    destruct (c =? 45)%N; injection Es as <- <-; cbn; lia. }
  pose proof (spanDigits_length s1) as H2.
  destruct (spanDigits s1) as [int s2]. cbn [snd] in H2.
  destruct int as [|d0 ds]; [discriminate|].
  destruct ((d0 =? 48)%N && negb (bool_decide (ds = []))); [discriminate|].
  destruct (match s2 with
            | [] => Some ([], s2)
            | c :: r0 =>
              if (c =? 46)%N
              then let '(fd, r') := spanDigits r0 in
                   match fd with [] => None | _ :: _ => Some (c :: fd, r') end
              else Some ([], s2)
            end) as [[fr s3]|] eqn:Ef; [|discriminate].
  assert (H3 : (length s3 <= length s2)%nat).
  { destruct s2 as [|c r0]; [injection Ef as <- <-; reflexivity|].
    destruct (c =? 46)%N; [|injection Ef as <- <-; reflexivity].
    pose proof (spanDigits_length r0) as H.
    destruct (spanDigits r0) as [fd r']. destruct fd; [discriminate|].
    injection Ef as <- <-. cbn in *. lia. }
  destruct (match s3 with
            | [] => Some ([], s3)
            | c :: r0 =>
              if ((c =? 101) || (c =? 69))%N
              then let '(sg, r1) :=
                     match r0 with
                     | [] => ([], r0)
                     | x :: r' => if ((x =? 43) || (x =? 45))%N then ([x], r') else ([], r0)
                     end in
                   let '(ed, r2) := spanDigits r1 in
                   match ed with [] => None | _ :: _ => Some (c :: sg ++ ed, r2) end
              else Some ([], s3)
            end) as [[ex s4]|] eqn:Ee; [|discriminate].
  intros [= <- <-].
  enough (length s4 <= length s3)%nat by lia.
  destruct s3 as [|c r0]; [injection Ee as <- <-; reflexivity|].
  destruct ((c =? 101) || (c =? 69))%N; [|injection Ee as <- <-; reflexivity].
  destruct (match r0 with
            | [] => ([], r0)
            | x :: r' => if ((x =? 43) || (x =? 45))%N then ([x], r') else ([], r0)
            end) as [sg r1] eqn:Eg.
  assert (length r1 <= length r0)%nat.
  { destruct r0 as [|x r']; [injection Eg as <- <-; reflexivity|].
    destruct ((x =? 43) || (x =? 45))%N; injection Eg as <- <-; cbn; lia. }
  pose proof (spanDigits_length r1) as Hsp.
  destruct (spanDigits r1) as [ed r2]. destruct ed; [discriminate|].
  injection Ee as <- <-. cbn in *. lia.
Qed.

Lemma stripPrefix_length p s r :
  stripPrefix p s = Some r -> (length r <= length s)%nat.
Proof.
  revert s. induction p as [|x p IH]; intros s; cbn [stripPrefix].
  - intros [= <-]. reflexivity.
  - destruct s as [|y s']; [discriminate|].
    destruct (x =? y)%N; [|discriminate]. intros E%IH. cbn. lia.
Qed.

Ltac more_fuel f' :=
  let f'' := fresh "f" in
  destruct f' as [|f'']; [cbn [length] in *; lia|].

(** A parse that succeeds with some fuel succeeds, with the same result,
    with any fuel from twice the length of the text on. *)
Lemma parse_fuel f :
  (forall s v r, parseValue f s = Some (v, r) ->
     (length r <= length s)%nat
     /\ forall f', (2 * length s <= f')%nat -> parseValue f' s = Some (v, r))
  /\ (forall s vs r, parseElements f s = Some (vs, r) ->
     (length r <= length s)%nat
     /\ forall f', (2 * length s + 1 <= f')%nat -> parseElements f' s = Some (vs, r))
  /\ (forall s ms r, parseMembers f s = Some (ms, r) ->
     (length r <= length s)%nat
     /\ forall f', (2 * length s <= f')%nat -> parseMembers f' s = Some (ms, r)).
Proof.
  induction f as [|f (IHV & IHE & IHM)]; [repeat split; discriminate|].
  split; [|split].
  - intros s v r. cbn [parseValue].
    destruct (skipWs s) as [|c r0] eqn:Ews; [discriminate|].
    pose proof (skipWs_cons_length _ _ _ Ews) as Hr0.
    destruct (c =? 34)%N eqn:E34.
    { destruct (parseString r0) as [[k r1]|] eqn:Eps; [|discriminate].
      cbn. intros [= <- <-]. apply parseString_length in Eps as Hl.
      split; [lia|]. intros f' Hf'. more_fuel f'.
      cbn [parseValue]. rewrite Ews, E34, Eps. reflexivity. }
    destruct (c =? 91)%N eqn:E91.
    { destruct (skipWs r0) as [|x r'] eqn:Ews2; [discriminate|].
      pose proof (skipWs_cons_length _ _ _ Ews2) as Hr'.
      destruct (x =? 93)%N eqn:E93.
      - intros [= <- <-]. split; [lia|]. intros f' Hf'. more_fuel f'.
        cbn [parseValue]. rewrite Ews, E34, E91, Ews2, E93. reflexivity.
      - destruct (parseElements f r0) as [[vs r1]|] eqn:Epe; [|discriminate].
        cbn. intros [= <- <-]. apply IHE in Epe as [Hl Hfuel].
        split; [lia|]. intros f' Hf'. more_fuel f'.
        cbn [parseValue]. rewrite Ews, E34, E91, Ews2, E93.
        rewrite Hfuel by lia. reflexivity. }
    destruct (c =? 123)%N eqn:E123.
    { destruct (skipWs r0) as [|x r'] eqn:Ews2; [discriminate|].
      pose proof (skipWs_cons_length _ _ _ Ews2) as Hr'.
      destruct (x =? 125)%N eqn:E125.
      - intros [= <- <-]. split; [lia|]. intros f' Hf'. more_fuel f'.
        cbn [parseValue]. rewrite Ews, E34, E91, E123, Ews2, E125. reflexivity.
      - destruct (parseMembers f r0) as [[ms r1]|] eqn:Epm; [|discriminate].
        cbn. intros [= <- <-]. apply IHM in Epm as [Hl Hfuel].
        split; [lia|]. intros f' Hf'. more_fuel f'.
        cbn [parseValue]. rewrite Ews, E34, E91, E123, Ews2, E125.
        rewrite Hfuel by lia. reflexivity. }
    destruct (c =? 116)%N eqn:E116.
    { destruct (stripPrefix (u16 "rue") r0) as [r1|] eqn:Esp; [|discriminate].
      cbn. intros [= <- <-]. apply stripPrefix_length in Esp as Hl.
      split; [lia|]. intros f' Hf'. more_fuel f'.
      cbn [parseValue]. rewrite Ews, E34, E91, E123, E116, Esp. reflexivity. }
    destruct (c =? 102)%N eqn:E102.
    { destruct (stripPrefix (u16 "alse") r0) as [r1|] eqn:Esp; [|discriminate].
      cbn. intros [= <- <-]. apply stripPrefix_length in Esp as Hl.
      split; [lia|]. intros f' Hf'. more_fuel f'.
      cbn [parseValue]. rewrite Ews, E34, E91, E123, E116, E102, Esp. reflexivity. }
    destruct (c =? 110)%N eqn:E110.
    { destruct (stripPrefix (u16 "ull") r0) as [r1|] eqn:Esp; [|discriminate].
      cbn. intros [= <- <-]. apply stripPrefix_length in Esp as Hl.
      split; [lia|]. intros f' Hf'. more_fuel f'.
      cbn [parseValue]. rewrite Ews, E34, E91, E123, E116, E102, E110, Esp.
      reflexivity. }
    destruct (parseNumber (c :: r0)) as [[t r1]|] eqn:En; [|discriminate].
    cbn. intros [= <- <-]. apply parseNumber_length in En as Hl. cbn [length] in Hl.
    split; [lia|]. intros f' Hf'. more_fuel f'.
    cbn [parseValue]. rewrite Ews, E34, E91, E123, E116, E102, E110, En. reflexivity.
  - intros s vs r. cbn [parseElements].
    destruct (parseValue f s) as [[v r1]|] eqn:Ev; [|discriminate].
    apply IHV in Ev as [Hl1 Hfuel1].
    destruct (skipWs r1) as [|c r'] eqn:Ews; [discriminate|].
    pose proof (skipWs_cons_length _ _ _ Ews) as Hr'.
    destruct (c =? 44)%N eqn:E44.
    + destruct (parseElements f r') as [[vs' r'']|] eqn:Ee; [|discriminate].
      cbn. intros [= <- <-]. apply IHE in Ee as [Hl2 Hfuel2].
      split; [lia|]. intros f' Hf'. more_fuel f'.
      cbn [parseElements]. rewrite Hfuel1 by lia. rewrite Ews, E44.
      rewrite Hfuel2 by lia. reflexivity.
    + destruct (c =? 93)%N eqn:E93; [|discriminate].
      intros [= <- <-]. split; [lia|]. intros f' Hf'. more_fuel f'.
      cbn [parseElements]. rewrite Hfuel1 by lia. rewrite Ews, E44, E93.
      reflexivity.
  - intros s ms r. cbn [parseMembers].
    destruct (skipWs s) as [|q r0] eqn:Ews0; [discriminate|].
    pose proof (skipWs_cons_length _ _ _ Ews0) as Hr0.
    destruct (q =? 34)%N eqn:Eq; [|discriminate].
    destruct (parseString r0) as [[k r1]|] eqn:Eps; [|discriminate].
    apply parseString_length in Eps as Hr1.
    destruct (skipWs r1) as [|c1 r2] eqn:Ews1; [discriminate|].
    pose proof (skipWs_cons_length _ _ _ Ews1) as Hr2.
    destruct (c1 =? 58)%N eqn:Ec1; [|discriminate].
    destruct (parseValue f r2) as [[v r3]|] eqn:Ev; [|discriminate].
    apply IHV in Ev as [Hl3 Hfuel3].
    destruct (skipWs r3) as [|c r'] eqn:Ews3; [discriminate|].
    pose proof (skipWs_cons_length _ _ _ Ews3) as Hr'.
    destruct (c =? 44)%N eqn:E44.
    + destruct (parseMembers f r') as [[ms' r'']|] eqn:Em; [|discriminate].
      cbn. intros [= <- <-]. apply IHM in Em as [Hl4 Hfuel4].
      split; [lia|]. intros f' Hf'. more_fuel f'.
      cbn [parseMembers]. rewrite Ews0, Eq, Eps, Ews1, Ec1.
      rewrite Hfuel3 by lia. rewrite Ews3, E44.
      rewrite Hfuel4 by lia. reflexivity.
    + destruct (c =? 125)%N eqn:E125; [|discriminate].
      intros [= <- <-]. split; [lia|]. intros f' Hf'. more_fuel f'.
      cbn [parseMembers]. rewrite Ews0, Eq, Eps, Ews1, Ec1.
      rewrite Hfuel3 by lia. rewrite Ews3, E44, E125. reflexivity.
Qed.

(** [JSON_parse] fails only on a text that no amount of fuel parses to a
    value followed by nothing but white space. *)
Lemma JSON_parse_None s :
  JSON_parse s = None ->
  forall f v r, parseValue f s = Some (v, r) -> skipWs r <> [].
Proof.
  unfold JSON_parse. intros Hp f v r Hf.
  destruct (parse_fuel f) as (HV & _ & _).
  destruct (HV s v r Hf) as [_ Hfuel].
  rewrite (Hfuel (2 * length s + 2)%nat) in Hp by lia.
  destruct (skipWs r); [discriminate | discriminate].
Qed.
End JsonFuel.

(** ** The store: loading, rendering and the upload *)
Module AppFacts.
Import JS Platform Ingest Json View App Spec JsonFacts.

Lemma absent_stored s : s <> [] -> absent (Some s) = false.
Proof. intros Hs. cbn. apply bool_decide_eq_false_2. exact Hs. Qed.

(** Loading a slot that does not parse: the slot is cleared and the page
    put back to the upload prompt; nothing is thrown. *)
Lemma initSchedule_corrupt H st s :
  slot st = Some s -> s <> [] -> JSON_parse s = None ->
  initSchedule H st = Done (resetView uploadMsg (setSlot None (log corruptLog st))).
Proof.
  intros Hslot Hs Hp. unfold initSchedule.
  rewrite Hslot, (absent_stored s Hs). cbn [default from_option id].
  rewrite Hp. reflexivity.
Qed.

(** Rendering from a slot that does not parse: the SyntaxError of
    [JSON.parse] leaves [renderSchedule], and the slot stays. *)
Lemma renderSchedule_corrupt st s :
  slot st = Some s -> s <> [] -> JSON_parse s = None ->
  renderSchedule st = Thrown SyntaxError st.
Proof.
  intros Hslot Hs Hp. unfold renderSchedule.
  rewrite Hslot, (absent_stored s Hs). cbn [default from_option id].
  rewrite Hp. reflexivity.
Qed.

(** A slot that holds the empty string counts as absent for both, and
    neither clears it. *)
Lemma empty_string_slot_stays H :
  initSchedule H (pageWith (Some [])) = Done (resetView uploadMsg (pageWith (Some [])))
  /\ renderSchedule (pageWith (Some [])) = Done (pageWith (Some [])).
Proof. split; reflexivity. Qed.

(** C3 (the code departs from it): with the text of an open brace in the
    slot, which is no JSON, [initSchedule] clears the slot and throws
    nothing, but [renderSchedule], which reads the slot too, lets the
    SyntaxError out and leaves the slot as it is. *)
Theorem renderSchedule_corrupt_slot_throws H :
  JSON_parse (u16 "{") = None
  /\ initSchedule H (pageWith (Some (u16 "{")))
     = Done (resetView uploadMsg (setSlot None (log corruptLog (pageWith (Some (u16 "{"))))))
  /\ renderSchedule (pageWith (Some (u16 "{")))
     = Thrown SyntaxError (pageWith (Some (u16 "{"))).
Proof.
  assert (Hp : JSON_parse (u16 "{") = None) by (vm_compute; reflexivity).
  split; [exact Hp|]. split.
  - apply (initSchedule_corrupt H _ (u16 "{")); [reflexivity|discriminate|exact Hp].
  - apply (renderSchedule_corrupt _ (u16 "{")); [reflexivity|discriminate|exact Hp].
Qed.

(** Rendering what was just saved returns. *)
Lemma renderSchedule_after_save events st :
  slot st = Some (JSON_stringify events) ->
  renderSchedule st
  = Done (showGrid (gridHtml events (buildingValue st) (dateValue st)) st).
Proof.
  intros Hslot. unfold renderSchedule.
  rewrite Hslot, (absent_stored _ (JSON_stringify_not_empty events)).
  cbn [default from_option id].
  rewrite JSON_parse_stringify, asEntries_entryJson. reflexivity.
Qed.

(** [initSchedule] after a successful [setItem] returns, and the slot
    holds what was saved. *)
Lemma initSchedule_after_save H events st :
  exists st2,
    initSchedule H (setSlot (Some (JSON_stringify events)) st) = Done st2
    /\ slot st2 = Some (JSON_stringify events).
Proof.
  unfold initSchedule. cbn [slot setSlot].
  rewrite (absent_stored _ (JSON_stringify_not_empty events)).
  cbn [default from_option id]. rewrite JSON_parse_stringify.
  destruct events as [|e events].
  - eexists. split; reflexivity.
  - cbn [map]. change (entryJson e :: map entryJson events)
      with (map entryJson (e :: events)).
    rewrite asEntries_entryJson.
    rewrite (renderSchedule_after_save (e :: events)) by reflexivity.
    eexists. split; reflexivity.
Qed.

(** The body of the [try] throws only before anything is stored: when the
    workbook cannot be read or when storage refuses the value. *)
Lemma tryBody_thrown H data st e st' :
  tryBody H data st = Thrown e st' -> st' = st.
Proof.
  unfold tryBody, setItem.
  destruct (XLSX_rows H data) as [rows|]; [|intros [= _ <-]; reflexivity].
  destruct (eventsOf H rows) as [events|]; [|discriminate].
  destruct (storage_accepts H (JSON_stringify events)).
  - destruct (initSchedule_after_save H events st) as (st2 & -> & _). discriminate.
  - intros [= _ <-]. reflexivity.
Qed.

(** The handler follows every upload to its end. *)
Lemma onload_modelled H data st : onload H data st <> Unmodelled.
Proof.
  unfold onload, tryBody, setItem.
  destruct (XLSX_rows H data) as [rows|]; [|discriminate].
  destruct (eventsOf H rows) as [events|]; [|discriminate].
  destruct (storage_accepts H (JSON_stringify events)); [|discriminate].
  destruct (initSchedule_after_save H events st) as (st2 & -> & _). discriminate.
Qed.

(** A successful upload replaces the slot by the text of the new events. *)
Lemma onload_saves H data st rows events :
  XLSX_rows H data = Some rows -> eventsOf H rows = Some events ->
  storage_accepts H (JSON_stringify events) = true ->
  exists st2, onload H data st = Done st2
              /\ slot st2 = Some (JSON_stringify events).
Proof.
  intros Hr He Ha. unfold onload, tryBody, setItem. rewrite Hr, He, Ha.
  destruct (initSchedule_after_save H events st) as (st2 & -> & Hs).
  exists st2. split; [reflexivity | exact Hs].
Qed.

(** C8: when an exception is raised in the [try] of the upload handler,
    the handler ends with the slot as it was before the upload, one more
    alert, the generic parse error message, and the cause logged. *)
Theorem onload_exception_leaves_store H data st e st' :
  tryBody H data st = Thrown e st' ->
  exists final,
    onload H data st = Done final
    /\ slot final = slot st
    /\ alerts final = alerts st ++ [parseErrorMsg]
    /\ console final = console st ++ [parseErrorLog].
Proof.
  intros Ht. pose proof (tryBody_thrown _ _ _ _ _ Ht) as ->.
  exists (alert parseErrorMsg (log parseErrorLog st)).
  unfold onload. rewrite Ht. repeat split; reflexivity.
Qed.

(** A file that the workbook reader rejects, uploaded over a stored empty
    list. *)
Lemma onload_exception_leaves_store_witness :
  exists final,
    onload (plainHost 0) [] (pageWith (Some (u16 "[]"))) = Done final
    /\ slot final = slot (pageWith (Some (u16 "[]")))
    /\ alerts final = alerts (pageWith (Some (u16 "[]"))) ++ [parseErrorMsg]
    /\ console final = console (pageWith (Some (u16 "[]"))) ++ [parseErrorLog].
Proof.
  exact (onload_exception_leaves_store (plainHost 0) []
           (pageWith (Some (u16 "[]"))) ReadError
           (pageWith (Some (u16 "[]"))) eq_refl).
Defined.

End AppFacts.
(** ** More on escaping and the grid *)
Module ViewMore.
Import JS Ingest View Spec EscapeFacts ViewFacts.

Lemma escapeUnit_length c :
  (1 <= length (escapeUnit c))%nat
  /\ (length (escapeUnit c) = 1%nat -> isPlain c = true).
Proof.
  unfold escapeUnit, isPlain, isMarkup.
  destruct (N.eqb_spec c 38); [split; [vm_compute; lia | vm_compute; discriminate]|].
  destruct (N.eqb_spec c 60); [split; [vm_compute; lia | vm_compute; discriminate]|].
  destruct (N.eqb_spec c 62); [split; [vm_compute; lia | vm_compute; discriminate]|].
  destruct (N.eqb_spec c 34); [split; [vm_compute; lia | vm_compute; discriminate]|].
  destruct (N.eqb_spec c 39); [split; [vm_compute; lia | vm_compute; discriminate]|].
  cbn. auto.
Qed.

Lemma escaped_length s :
  (length s <= length (flat_map escapeUnit s))%nat
  /\ (length (flat_map escapeUnit s) = length s -> forallb isPlain s = true).
Proof.
  induction s as [|c s [IH1 IH2]]; [cbn; auto|].
  cbn [flat_map forallb]. rewrite length_app. cbn [length].
  destruct (escapeUnit_length c) as [H1 H2].
  split; [lia|]. intros E.
  rewrite H2 by lia. rewrite IH2 by lia. reflexivity.
Qed.

Lemma escapeUnit_cases c :
  (isPlain c = true /\ escapeUnit c = [c] /\ c <> 38%N)
  \/ (c = 38%N \/ c = 60%N \/ c = 62%N \/ c = 34%N \/ c = 39%N).
Proof.
  unfold isPlain, isMarkup, escapeUnit.
  destruct (N.eqb_spec c 38); [right; tauto|].
  destruct (N.eqb_spec c 60); [right; tauto|].
  destruct (N.eqb_spec c 62); [right; tauto|].
  destruct (N.eqb_spec c 34); [right; tauto|].
  destruct (N.eqb_spec c 39); [right; tauto|].
  left. auto.
Qed.

Lemma escapeUnit_entities :
  escapeUnit 38 = [38; 97; 109; 112; 59]%N
  /\ escapeUnit 60 = [38; 108; 116; 59]%N
  /\ escapeUnit 62 = [38; 103; 116; 59]%N
  /\ escapeUnit 34 = [38; 113; 117; 111; 116; 59]%N
  /\ escapeUnit 39 = [38; 35; 51; 57; 59]%N.
Proof. vm_compute. repeat split. Qed.

Ltac entities E :=
  destruct escapeUnit_entities as (E38 & E60 & E62 & E34 & E39);
  rewrite ?E38, ?E60, ?E62, ?E34, ?E39 in E; cbn [app] in E.

Lemma escaped_injective s t :
  flat_map escapeUnit s = flat_map escapeUnit t -> s = t.
Proof.
  revert t. induction s as [|c s IH]; intros [|d t]; cbn [flat_map]; intros E.
  - reflexivity.
  - destruct (escapeUnit_length d) as [Hd _].
    destruct (escapeUnit d); [cbn in Hd; lia | discriminate].
  - destruct (escapeUnit_length c) as [Hc _].
    destruct (escapeUnit c); [cbn in Hc; lia | discriminate].
  - destruct (escapeUnit_cases c) as [(_ & Ec & Hc)|Hc];
      destruct (escapeUnit_cases d) as [(_ & Ed & Hd)|Hd].
    + rewrite Ec, Ed in E. injection E as -> E. f_equal. apply IH. exact E.
    + rewrite Ec in E.
      destruct Hd as [-> | [-> | [-> | [-> | ->]]]]; entities E;
        injection E as E _; congruence.
    + rewrite Ed in E.
      destruct Hc as [-> | [-> | [-> | [-> | ->]]]]; entities E;
        injection E as E _; congruence.
    + destruct Hc as [-> | [-> | [-> | [-> | ->]]]];
        destruct Hd as [-> | [-> | [-> | [-> | ->]]]];
        entities E; try discriminate E;
        (f_equal; apply IH; congruence).
Qed.

(** X1: the escaped text holds no [<], [>], double or single quote, and
    it is the text itself exactly when the text holds none of these and no
    [&]. *)
Theorem escapeHtml_output s :
  forallb (fun x => negb (isMarkup x)) (escapeHtml s) = true
  /\ (escapeHtml s = s <-> forallb isPlain s = true).
Proof.
  split; [apply escapeHtml_no_markup|]. split.
  - intros E. apply escaped_length. rewrite <- escapeHtml_units, E. reflexivity.
  - apply escapeHtml_plain.
Qed.

(** X2: escaping loses nothing: two texts are escaped to the same text
    only when they are the same. *)
Theorem escapeHtml_injective s t : escapeHtml s = escapeHtml t <-> s = t.
Proof.
  split; [|intros ->; reflexivity].
  rewrite !escapeHtml_units. apply escaped_injective.
Qed.

Lemma strltb_cotrans a b c :
  strltb c a = true -> strltb b a = true \/ strltb c b = true.
Proof.
  revert a b. induction c as [|c0 c' IH]; intros a b Hca.
  - destruct a as [|a0 a']; [discriminate|].
    destruct b as [|b0 b']; [left; reflexivity | right; reflexivity].
  - destruct a as [|a0 a']; [discriminate|].
    destruct b as [|b0 b']; [left; reflexivity|].
    cbn [strltb] in *.
    destruct (N.ltb_spec b0 a0); [left; reflexivity|].
    destruct (N.ltb_spec c0 b0); [right; reflexivity|].
    destruct (N.ltb_spec c0 a0); [lia|].
    cbn [orb] in *.
    destruct (N.eqb_spec c0 a0); [|discriminate]. cbn [andb] in Hca.
    destruct (N.eqb_spec b0 a0); [|lia].
    destruct (N.eqb_spec c0 b0); [|lia]. cbn [andb].
    apply IH. exact Hca.
Qed.

Lemma strltb_asym a b : strltb a b = true -> strltb b a = false.
Proof.
  revert b. induction a as [|a0 a' IH]; intros b Hab.
  - destruct b; [discriminate | reflexivity].
  - destruct b as [|b0 b']; [discriminate|]. cbn [strltb] in *.
    destruct (N.ltb_spec a0 b0).
    + destruct (N.ltb_spec b0 a0); [lia|]. destruct (N.eqb_spec b0 a0); [lia|]. reflexivity.
    + cbn [orb] in Hab. destruct (N.eqb_spec a0 b0); [|discriminate]. subst.
      cbn [andb] in Hab. destruct (N.ltb_spec b0 b0); [lia|].
      rewrite N.eqb_refl. cbn. apply IH. exact Hab.
Qed.

Lemma strltb_total a b :
  strltb a b = false -> strltb b a = false -> a = b.
Proof.
  revert b. induction a as [|a0 a' IH]; intros b Hab Hba.
  - destruct b; [reflexivity | discriminate].
  - destruct b as [|b0 b']; [discriminate|]. cbn [strltb] in *.
    destruct (N.ltb_spec a0 b0); [discriminate|].
    destruct (N.ltb_spec b0 a0); [discriminate|].
    assert (a0 = b0) by lia. subst. rewrite N.eqb_refl in *. cbn in *.
    f_equal. apply IH; assumption.
Qed.
Lemma defaultCompare_le x y :
  True -> True ->
  if comesAfter defaultCompare x y then strltb x y = false else strltb y x = false.
Proof.
  intros _ _. unfold comesAfter, defaultCompare.
  destruct (strltb x y) eqn:Exy; [cbn; apply strltb_asym; exact Exy|].
  destruct (strltb y x) eqn:Eyx; cbn; reflexivity.
Qed.

Lemma sortStrings_le l :
  StronglySorted (fun a b => strltb b a = false) (sortStrings l).
Proof.
  apply (sortWith_sorted defaultCompare (fun a b => strltb b a = false) (fun _ => True)).
  - intros x y z Hxy Hyz.
    destruct (strltb z x) eqn:E; [|reflexivity].
    destruct (strltb_cotrans x y z E); congruence.
  - exact defaultCompare_le.
  - apply Forall_forall. auto.
Qed.

Lemma sorted_strict (l : list jsstring) :
  StronglySorted (fun a b => strltb b a = false) l -> NoDup l ->
  StronglySorted strLt l.
Proof.
  intros Hs. induction Hs as [|a l Hs IH Ha]; intros Hnd; [constructor|].
  apply NoDup_cons in Hnd as [Hnotin Hnd].
  constructor; [apply IH; exact Hnd|].
  apply Forall_forall. intros x Hx.
  rewrite Forall_forall in Ha. specialize (Ha x Hx). unfold strLt.
  destruct (strltb a x) eqn:E; [reflexivity|].
  exfalso. apply Hnotin. rewrite (strltb_total a x E Ha). exact Hx.
Qed.

(** X3: the columns of the grid are the rooms of the day's entries,
    each once, in strictly ascending order of code units. *)
Theorem grid_columns (dailyEvents : list ScheduleEntry) :
  StronglySorted strLt (roomsOf dailyEvents)
  /\ forall r, r ∈ roomsOf dailyEvents
               <-> exists ev, ev ∈ dailyEvents /\ room ev = r.
Proof.
  unfold roomsOf. split.
  - apply sorted_strict; [apply sortStrings_le|].
    unfold sortStrings. rewrite sortWith_Permutation. apply SetFrom_NoDup.
  - intros r. unfold sortStrings.
    rewrite sortWith_Permutation, SetFrom_elem, list_elem_of_fmap.
    split; intros (ev & H1 & H2); exists ev; auto.
Qed.

Lemma find_first {A} (p : A -> bool) (l : list A) x :
  List.find p l = Some x <->
  exists pre post, l = pre ++ x :: post /\ p x = true
                   /\ Forall (fun y => p y = false) pre.
Proof.
  revert x. induction l as [|y l IH]; intros x; cbn [List.find].
  - split; [discriminate|]. intros (pre & post & E & _). destruct pre; discriminate.
  - destruct (p y) eqn:Ey.
    + split.
      * intros [= <-]. exists [], l. repeat split; [exact Ey | constructor].
      * intros (pre & post & E & Hx & Hpre). destruct pre as [|z pre].
        -- injection E as -> _. reflexivity.
        -- injection E as -> _. apply Forall_cons in Hpre as [Hz _]. congruence.
    + rewrite IH. split.
      * intros (pre & post & -> & Hx & Hpre). exists (y :: pre), post.
        repeat split; [exact Hx | constructor; assumption].
      * intros (pre & post & E & Hx & Hpre). destruct pre as [|z pre].
        -- injection E as -> _. congruence.
        -- injection E as -> ->. apply Forall_cons in Hpre as [_ Hpre].
           exists pre, post. auto.
Qed.

Lemma slot_test r t e :
  streq (room e) r && streq (start e) t = true <-> sameSlot r t e.
Proof.
  unfold streq, sameSlot. rewrite andb_true_iff, !bool_decide_eq_true. tauto.
Qed.

(** X4: every entry of the day has its cell in the grid: its room is a
    column, its start a row, and the cell there is occupied.  The cell
    shows the first entry of the day with that room and start, so a later
    entry of the same slot is not shown. *)
Theorem grid_slot_of_entry (dailyEvents : list ScheduleEntry) ev :
  ev ∈ dailyEvents ->
  room ev ∈ roomsOf dailyEvents /\ start ev ∈ timesOf dailyEvents
  /\ exists pre shown post,
       dailyEvents = pre ++ shown :: post
       /\ sameSlot (room ev) (start ev) shown
       /\ Forall (fun e => ~ sameSlot (room ev) (start ev) e) pre
       /\ cellHtml dailyEvents (start ev) (room ev) = occupiedHtml shown.
Proof.
  intros Hev. split; [|split].
  - unfold roomsOf, sortStrings.
    rewrite sortWith_Permutation, SetFrom_elem, list_elem_of_fmap. eauto.
  - unfold timesOf. rewrite sortWith_Permutation, SetFrom_elem, list_elem_of_fmap. eauto.
  - destruct (findEvent dailyEvents (room ev) (start ev)) as [shown|] eqn:Ef.
    + pose proof Ef as Ef'. unfold findEvent in Ef'.
      apply find_first in Ef' as (pre & post & E & Hs & Hpre).
      exists pre, shown, post. split; [exact E|]. split; [apply slot_test; exact Hs|].
      split.
      * eapply Forall_impl; [exact Hpre|]. intros e He Hss.
        apply slot_test in Hss. congruence.
      * unfold cellHtml. rewrite Ef. reflexivity.
    + exfalso. unfold findEvent in Ef.
      apply list_elem_of_In in Hev.
      pose proof (find_none _ _ Ef ev Hev) as Hn. cbn beta in Hn.
      assert (streq (room ev) (room ev) && streq (start ev) (start ev) = true)
        by (apply slot_test; split; reflexivity).
      congruence.
Qed.

Lemma tableHtml_head dailyEvents :
  exists t, tableHtml dailyEvents = 60%N :: 116%N :: t.
Proof. unfold tableHtml, headHtml. cbn [app]. eexists. reflexivity. Qed.

(** X5: the grid is replaced by the notice of no classes exactly when
    no stored entry has the selected building and date. *)
Theorem grid_placeholder_iff events b d :
  gridHtml events b d = noClassesHtml
  <-> forall ev, ev ∈ events -> building ev = b -> date ev <> d.
Proof.
  unfold gridHtml.
  assert (Hf : dailyEventsOf events b d = []
               <-> forall ev, ev ∈ events -> building ev = b -> date ev <> d).
  { unfold dailyEventsOf. split.
    - intros E ev Hev Hb Hd.
      assert (Hin : ev ∈ filter (fun ev => streq (building ev) b && streq (date ev) d) events).
      { apply list_elem_of_filter. split; [|exact Hev].
        unfold streq. rewrite !bool_decide_eq_true_2 by assumption. exact I. }
      rewrite E in Hin. apply elem_of_nil in Hin. exact Hin.
    - intros Hall.
      destruct (filter (fun ev => streq (building ev) b && streq (date ev) d) events)
        as [|ev l] eqn:E; [reflexivity|].
      assert (Hin : ev ∈ filter (fun ev => streq (building ev) b && streq (date ev) d) events)
        by (rewrite E; left).
      apply list_elem_of_filter in Hin as [Hp Hin].
      apply Is_true_true, andb_true_iff in Hp as [Hb Hd].
      unfold streq in Hb, Hd. apply bool_decide_eq_true in Hb, Hd.
      exfalso. exact (Hall ev Hin Hb Hd). }
  rewrite <- Hf. split.
  - destruct (dailyEventsOf events b d) as [|e l] eqn:E; [reflexivity|].
    destruct (tableHtml_head (e :: l)) as [t ->]. discriminate.
  - intros ->. reflexivity.
Qed.

(** Two entries booked into the same room at the same time. *)
Lemma grid_slot_of_entry_witness :
  room (entryAt (u16 "101") (u16 "08:30") (u16 "Physics") (u16 "G2"))
    ∈ roomsOf [entryAt (u16 "101") (u16 "08:30") (u16 "Algebra") (u16 "G1");
               entryAt (u16 "101") (u16 "08:30") (u16 "Physics") (u16 "G2")]
  /\ start (entryAt (u16 "101") (u16 "08:30") (u16 "Physics") (u16 "G2"))
       ∈ timesOf [entryAt (u16 "101") (u16 "08:30") (u16 "Algebra") (u16 "G1");
                  entryAt (u16 "101") (u16 "08:30") (u16 "Physics") (u16 "G2")]
  /\ exists pre shown post,
       [entryAt (u16 "101") (u16 "08:30") (u16 "Algebra") (u16 "G1");
        entryAt (u16 "101") (u16 "08:30") (u16 "Physics") (u16 "G2")]
       = pre ++ shown :: post
       /\ sameSlot (u16 "101") (u16 "08:30") shown
       /\ Forall (fun e => ~ sameSlot (u16 "101") (u16 "08:30") e) pre
       /\ cellHtml [entryAt (u16 "101") (u16 "08:30") (u16 "Algebra") (u16 "G1");
                    entryAt (u16 "101") (u16 "08:30") (u16 "Physics") (u16 "G2")]
                   (u16 "08:30") (u16 "101")
          = occupiedHtml shown.
Proof.
  apply (grid_slot_of_entry
           [entryAt (u16 "101") (u16 "08:30") (u16 "Algebra") (u16 "G1");
            entryAt (u16 "101") (u16 "08:30") (u16 "Physics") (u16 "G2")]
           (entryAt (u16 "101") (u16 "08:30") (u16 "Physics") (u16 "G2"))).
  right. left.
Defined.
End ViewMore.
(** ** More on reading the workbook *)
Module IngestMore.
Import JS Platform JSDate Ingest Spec NumberFacts DateFacts IngestFacts EscapeFacts.

Lemma Number_toString_chars z : forallb isDateChar (Number_toString z) = true.
Proof.
  unfold Number_toString.
  set (n := Z.to_N (Z.abs z)).
  destruct (digitsOf_digits (S (N.size_nat n)) n []) as (ds & Hds & Hdec & _).
  { rewrite Nat2N.inj_succ, N.pow_succ_r'. pose proof (size_nat_bound n). lia. }
  { lia. }
  rewrite Hds, app_nil_r.
  assert (Hd : forallb isDateChar ds = true).
  { apply forallb_forall. intros c Hc. apply list_elem_of_In in Hc.
    rewrite Forall_forall in Hdec. specialize (Hdec c Hc).
    unfold isDecimal in Hdec. unfold isDateChar.
    destruct (N.leb_spec 48 c); [|lia]. destruct (N.leb_spec c 57); [|lia].
    reflexivity. }
  destruct (z <? 0); [cbn [forallb]; rewrite Hd; reflexivity | exact Hd].
Qed.

Lemma padStart0_chars n s :
  forallb isDateChar s = true -> forallb isDateChar (padStart0 n s) = true.
Proof.
  intros Hs. unfold padStart0. rewrite forallb_app, Hs, andb_true_r.
  induction (n - length s)%nat as [|k IH]; [reflexivity|]. cbn. exact IH.
Qed.

Lemma NaN_toString_chars x : forallb isDateChar (NaN_toString x) = true.
Proof. destruct x; [apply Number_toString_chars | reflexivity]. Qed.

Lemma isoDateOf_chars H t : forallb isDateChar (isoDateOf H t) = true.
Proof.
  unfold isoDateOf. cbv zeta.
  rewrite !forallb_app, !padStart0_chars by apply NaN_toString_chars.
  reflexivity.
Qed.

Lemma isDateChar_plain s :
  forallb isDateChar s = true -> forallb isPlain s = true.
Proof.
  intros Hs. apply forallb_forall. intros c Hc.
  rewrite forallb_forall in Hs. specialize (Hs c Hc).
  unfold isDateChar in Hs. unfold isPlain, isMarkup.
  rewrite !orb_true_iff, andb_true_iff, !N.eqb_eq, !N.leb_le in Hs.
  repeat match goal with |- context [(c =? ?k)%N] =>
    destruct (N.eqb_spec c k); [lia|] end.
  reflexivity.
Qed.

(** What the loop emits for rows after a header. *)
Lemma eventsOf_elem H rows events e :
  eventsOf H rows = Some events -> e ∈ events ->
  exists headerMap rawDate row,
    truthy (Some rawDate) = true /\ e = entryOf H headerMap rawDate row.
Proof.
  unfold eventsOf. destruct (findIndex isHeaderRow rows) as [i|]; [|discriminate].
  cbv zeta. intros [= <-]. rewrite fold_pushRow, omap_rowEntry_filter. cbn [app].
  intros He. apply list_elem_of_omap in He as (row & _ & Hrow).
  unfold rowEntry in Hrow.
  destruct (at_ _ row L_date) as [rawDate|]; [|discriminate].
  destruct (truthy (Some rawDate)) eqn:Et; [|discriminate].
  injection Hrow as <-. eauto.
Qed.

(** X8: the date of every entry that an upload emits is made of digits,
    [-], [N] and [a] alone, so [escapeHtml] leaves it as it is. *)
Theorem stored_dates_inert H rows events e :
  eventsOf H rows = Some events -> e ∈ events ->
  forallb isDateChar (date e) = true /\ escapeHtml (date e) = date e.
Proof.
  intros He Hin. destruct (eventsOf_elem H rows events e He Hin)
    as (hm & rawDate & row & _ & ->).
  cbn [date entryOf]. unfold isoDate.
  pose proof (isoDateOf_chars H (dateObj H rawDate)) as Hc.
  split; [exact Hc|]. apply escapeHtml_plain.
  apply isDateChar_plain in Hc. exact Hc.
Qed.
Lemma trimStart_split s :
  exists p, s = p ++ trimStart s /\ forallb isWhiteSpace p = true
            /\ forall c r, trimStart s = c :: r -> isWhiteSpace c = false.
Proof.
  induction s as [|c s (p & Hp & Hws & Hhd)].
  - exists []. repeat split. discriminate.
  - cbn [trimStart]. destruct (isWhiteSpace c) eqn:Ec.
    + exists (c :: p). cbn. rewrite Ec, Hws. rewrite <- Hp. repeat split. exact Hhd.
    + exists []. repeat split. intros c' r [= <- _]. exact Ec.
Qed.

(** [trim] leaves no white space at either end. *)
Lemma trim_noEdgeSpace s : noEdgeSpace (trim s).
Proof.
  unfold trim, trimEnd.
  destruct (trimStart_split s) as (p & _ & _ & Hhead).
  set (u := trimStart s) in *.
  destruct (trimStart_split (rev u)) as (p2 & Hp2 & _ & Hhead2).
  set (w := trimStart (rev u)) in *.
  assert (Hu : u = rev w ++ rev p2).
  { rewrite <- (rev_involutive u), Hp2, rev_app_distr. reflexivity. }
  split.
  - intros c r Hr. apply (Hhead c (r ++ rev p2)). rewrite Hu, Hr. reflexivity.
  - intros c r Hr. apply (Hhead2 c (rev r)).
    rewrite <- (rev_involutive w), Hr, rev_app_distr. reflexivity.
Qed.

Lemma field_noEdgeSpace H hm row label : noEdgeSpace (field H hm row label).
Proof. unfold field. apply trim_noEdgeSpace. Qed.

(** X9: no text field of an entry that an upload emits begins or ends
    with white space. *)
Theorem stored_text_trimmed H rows events e :
  eventsOf H rows = Some events -> e ∈ events ->
  Forall noEdgeSpace (textFields e).
Proof.
  intros He Hin. destruct (eventsOf_elem H rows events e He Hin)
    as (hm & rawDate & row & _ & ->).
  unfold textFields. cbn [entryOf start end_ dayOfWeek discipline type group building room teacher].
  repeat constructor; apply field_noEdgeSpace.
Qed.

(** X10: a date text that is not a date is not refused: when one of its
    three parts is not a number, or it has not three parts and [Date.parse]
    does not know it, the date of the entry is the text [0NaN-NaN-NaN]. *)
Theorem invalid_date_text H s :
  (exists ds ms ys, split isDateSep s = [ds; ms; ys]
     /\ (parseInt 0 ds = None \/ parseInt 0 ms = None \/ parseInt 0 ys = None))
  \/ (length (split isDateSep s) <> 3%nat /\ Date_parse H s = None) ->
  isoDate H (CStr s) = u16 "0NaN-NaN-NaN".
Proof.
  intros [(ds & ms & ys & Hs & Hnan)|[Hlen Hp]]; unfold isoDate, dateObj; cbn [toString].
  - rewrite Hs.
    assert (E : Date_ymd H (parseInt 0 ys) (Z.pred <$> parseInt 0 ms) (parseInt 0 ds) = None).
    { unfold Date_ymd.
      destruct (parseInt 0 ys), (parseInt 0 ms), (parseInt 0 ds);
        try reflexivity.
      destruct Hnan as [? | [? | ?]]; discriminate. }
    rewrite E. reflexivity.
  - destruct (split isDateSep s) as [|a [|b [|c [|e r]]]];
      try (rewrite Hp; reflexivity). cbn in Hlen. congruence.
Qed.

Lemma headerMapOf_complete row label :
  (exists c, c ∈ row /\ labelOf c = Some label) ->
  exists i c, headerMapOf row !! label = Some i /\ row !! i = Some c
              /\ labelOf c = Some label.
Proof.
  induction row as [|c row IH] using rev_ind.
  - intros (c & Hc & _). apply elem_of_nil in Hc. contradiction.
  - intros (c0 & Hc0 & Hl). rewrite headerMapOf_snoc, headerStep_lookup.
    destruct (decide (labelOf c = Some label)) as [E|E].
    + exists (length row), c. split; [reflexivity|]. split; [|exact E].
      apply list_lookup_middle. reflexivity.
    + apply elem_of_app in Hc0 as [Hc0|Hc0].
      * destruct IH as (i & ci & Hi & Hci & Hli); [eauto|].
        exists i, ci. split; [exact Hi|]. split; [|exact Hli].
        rewrite lookup_app_l by (eapply lookup_lt_Some; exact Hci). exact Hci.
      * apply list_elem_of_singleton in Hc0. subst c0. contradiction.
Qed.

(** X6: in a row taken for the header, the date and the start label
    are both found: [headerMap] gives each a column of the row, whose cell,
    trimmed, is the label. *)
Theorem header_columns_found row :
  isHeaderRow row = true ->
  exists i j ci cj,
    headerMapOf row !! L_date = Some i /\ row !! i = Some ci
    /\ labelOf ci = Some L_date
    /\ headerMapOf row !! L_start = Some j /\ row !! j = Some cj
    /\ labelOf cj = Some L_start.
Proof.
  unfold isHeaderRow, includes. rewrite andb_true_iff, !bool_decide_eq_true.
  intros [Hd Hs].
  destruct (headerMapOf_complete row L_date) as (i & ci & H1 & H2 & H3).
  { exists (CStr L_date). split; [exact Hd | vm_compute; reflexivity]. }
  destruct (headerMapOf_complete row L_start) as (j & cj & H4 & H5 & H6).
  { exists (CStr L_start). split; [exact Hs | vm_compute; reflexivity]. }
  exists i, j, ci, cj. auto 10.
Qed.

Lemma findIndex_app {A} (p : A -> bool) pre l :
  Forall (fun x => p x = false) pre ->
  findIndex p (pre ++ l) = (fun i => (length pre + i)%nat) <$> findIndex p l.
Proof.
  induction 1 as [|x pre Hx _ IH]; cbn [app findIndex length].
  - destruct (findIndex p l); reflexivity.
  - rewrite Hx, IH. destruct (findIndex p l); reflexivity.
Qed.

(** X7: rows above the header row, none of which holds both labels,
    change nothing in what an upload emits. *)
Theorem rows_above_header_ignored H (pre rows : list (list cell)) :
  Forall (fun r => isHeaderRow r = false) pre ->
  eventsOf H (pre ++ rows) = eventsOf H rows.
Proof.
  intros Hpre. unfold eventsOf. rewrite (findIndex_app _ _ _ Hpre).
  destruct (findIndex isHeaderRow rows) as [i|]; [|reflexivity].
  cbn [fmap option_fmap option_map]. cbv zeta.
  rewrite lookup_app_r by lia.
  replace (length pre + i - length pre)%nat with i by lia.
  replace (length pre + i + 1)%nat with (length pre + (i + 1))%nat by lia.
  rewrite drop_app_add. reflexivity.
Qed.

Lemma findIndex_none {A} (p : A -> bool) l :
  findIndex p l = None <-> Forall (fun x => p x = false) l.
Proof.
  induction l as [|x l IH]; cbn [findIndex]; [split; [constructor | reflexivity]|].
  destruct (p x) eqn:Ex.
  - split; [discriminate|]. intros Hf. apply Forall_cons in Hf as [Hx _]. congruence.
  - destruct (findIndex p l); cbn.
    + split; [discriminate|]. intros Hf. apply Forall_cons in Hf as [_ Hl].
      apply IH in Hl. discriminate.
    + split; [|reflexivity]. intros _. constructor; [exact Ex | apply IH; reflexivity].
Qed.

Lemma canonicalDate_one_part y m d :
  0 <= y <= 9999 -> validDate y m d ->
  split isDateSep (canonicalDate (y, m, d)) = [canonicalDate (y, m, d)].
Proof.
  intros Hy Hv. pose proof Hv as [Hm Hd].
  pose proof (daysInMonth_bounds _ _ _ Hm Hd) as (Hd31 & _).
  unfold canonicalDate. cbn [fst snd].
  rewrite Number_toString_4 by lia. rewrite !Number_toString_2 by lia.
  change (u16 "-") with [45%N]. cbn [app].
  assert (Hns : forall k, 0 <= k <= 9 -> isDateSep (Z.to_N (48 + k)) = false).
  { intros k Hk. unfold isDateSep. apply orb_false_iff.
    split; apply N.eqb_neq; lia. }
  cbn [split].
  rewrite !Hns by div_lia. reflexivity.
Qed.

(** X11: a numeric date cell gives the calendar date that many days
    after 1899-12-30 in a zone at or east of UTC, and the day before that
    date in a zone west of UTC. *)
Theorem numeric_date_by_zone H n :
  - msPerDay < LocalTZA H < msPerDay -> -70000000 <= n <= 70000000 ->
  isoDate H (CNum n)
  = canonicalDate
      (civilFromDays (daysFromCivil 1899 12 30 + n
                      - (if LocalTZA H <? 0 then 1 else 0))).
Proof.
  intros Htz Hn. unfold isoDate, dateObj.
  change (Date_UTC 1899 11 30) with (Some (-2209161600000)).
  change (daysFromCivil 1899 12 30) with (-25569).
  unfold msPerDay in *.
  rewrite TimeClip_in_range by lia.
  rewrite isoDateOf_time. f_equal. f_equal.
  unfold msPerDay. destruct (Z.ltb_spec (LocalTZA H) 0); div_lia.
Qed.

(** X12: a date cell that holds a date in the form [YYYY-MM-DD] keeps it
    in a zone at or east of UTC, and gives the day before in a zone west
    of UTC. *)
Theorem canonical_date_by_zone H y m d :
  - msPerDay < LocalTZA H < msPerDay -> 0 <= y <= 9999 -> validDate y m d ->
  isoDate H (CStr (canonicalDate (y, m, d)))
  = if LocalTZA H <? 0
    then canonicalDate (civilFromDays (daysFromCivil y m d - 1))
    else canonicalDate (y, m, d).
Proof.
  intros Htz Hy Hv.
  unfold isoDate, dateObj. cbn [toString].
  rewrite canonicalDate_one_part by assumption. unfold Date_parse.
  rewrite parseIsoDate_canonical by assumption.
  rewrite isoDateOf_time.
  destruct (Z.ltb_spec (LocalTZA H) 0).
  - replace ((daysFromCivil y m d * msPerDay + LocalTZA H) / msPerDay)
      with (daysFromCivil y m d - 1) by (unfold msPerDay in *; div_lia).
    reflexivity.
  - replace ((daysFromCivil y m d * msPerDay + LocalTZA H) / msPerDay)
      with (daysFromCivil y m d) by (unfold msPerDay in *; div_lia).
    rewrite civil_roundtrip by exact Hv. reflexivity.
Qed.

(** A title row, the header, and one row of data. *)
Lemma header_columns_found_witness :
  exists i j ci cj,
    headerMapOf sampleHeader !! L_date = Some i /\ sampleHeader !! i = Some ci
    /\ labelOf ci = Some L_date
    /\ headerMapOf sampleHeader !! L_start = Some j /\ sampleHeader !! j = Some cj
    /\ labelOf cj = Some L_start.
Proof. apply (header_columns_found sampleHeader). vm_compute. reflexivity. Defined.

Lemma rows_above_header_ignored_witness :
  eventsOf (hostReading sampleRows)
           ([[CStr (u16 "Расписание занятий")]] ++ [sampleHeader; sampleRow])
  = eventsOf (hostReading sampleRows) [sampleHeader; sampleRow].
Proof.
  apply (rows_above_header_ignored (hostReading sampleRows)
           [[CStr (u16 "Расписание занятий")]] [sampleHeader; sampleRow]).
  constructor; [vm_compute; reflexivity | constructor].
Defined.

Lemma sampleRows_events :
  eventsOf (hostReading sampleRows) sampleRows = Some [sampleEntry].
Proof. vm_compute. reflexivity. Qed.

Lemma stored_dates_inert_witness :
  forallb isDateChar (date sampleEntry) = true
  /\ escapeHtml (date sampleEntry) = date sampleEntry.
Proof.
  apply (stored_dates_inert (hostReading sampleRows) sampleRows [sampleEntry]
           sampleEntry sampleRows_events).
  left.
Defined.

Lemma stored_text_trimmed_witness : Forall noEdgeSpace (textFields sampleEntry).
Proof.
  apply (stored_text_trimmed (hostReading sampleRows) sampleRows [sampleEntry]
           sampleEntry sampleRows_events).
  left.
Defined.

(** The word for tomorrow in the date column. *)
Lemma invalid_date_text_witness :
  isoDate (plainHost 0) (CStr (u16 "завтра")) = u16 "0NaN-NaN-NaN".
Proof.
  apply (invalid_date_text (plainHost 0) (u16 "завтра")).
  right. split; [vm_compute; intros E; discriminate E | vm_compute; reflexivity].
Defined.

(** The numeric cell 2, five hours west of UTC. *)
Lemma numeric_date_by_zone_witness :
  isoDate (plainHost (-300)) (CNum 2)
  = canonicalDate
      (civilFromDays (daysFromCivil 1899 12 30 + 2
                      - (if LocalTZA (plainHost (-300)) <? 0 then 1 else 0))).
Proof.
  apply (numeric_date_by_zone (plainHost (-300)) 2).
  - split; vm_compute; reflexivity.
  - lia.
Defined.

(** The first of September 2024, five hours west of UTC. *)
Lemma canonical_date_by_zone_witness :
  isoDate (plainHost (-300)) (CStr (canonicalDate (2024, 9, 1)))
  = if LocalTZA (plainHost (-300)) <? 0
    then canonicalDate (civilFromDays (daysFromCivil 2024 9 1 - 1))
    else canonicalDate (2024, 9, 1).
Proof.
  apply (canonical_date_by_zone (plainHost (-300)) 2024 9 1).
  - split; vm_compute; reflexivity.
  - lia.
  - split; [lia | vm_compute; split; discriminate].
Defined.
End IngestMore.
(** ** More on uploading and loading *)
Module AppMore.
Import JS Platform Ingest Json View App Spec JsonFacts AppFacts IngestFacts IngestMore.

(** X13: a workbook none of whose rows holds both the date and the
    start label is refused with an alert: nothing is stored and the page
    stays as it is. *)
Theorem upload_without_header H data st rows :
  XLSX_rows H data = Some rows ->
  Forall (fun r => isHeaderRow r = false) rows ->
  onload H data st = Done (alert headerNotFoundMsg st).
Proof.
  intros Hr Hn. unfold onload, tryBody, eventsOf. rewrite Hr.
  rewrite (proj2 (findIndex_none isHeaderRow rows) Hn). reflexivity.
Qed.

Lemma upload_without_header_witness :
  onload (hostReading [[CStr (u16 "Расписание")]; [CStr L_date]]) []
         (pageWith (Some (u16 "[]")))
  = Done (alert headerNotFoundMsg (pageWith (Some (u16 "[]")))).
Proof.
  apply (upload_without_header (hostReading [[CStr (u16 "Расписание")]; [CStr L_date]])
           [] _ [[CStr (u16 "Расписание")]; [CStr L_date]] eq_refl).
  repeat constructor.
Defined.


(** X15: a workbook with a header and no row of data is stored as the
    empty list, and the page says that the file holds no data. *)
Theorem upload_without_data H data st rows :
  XLSX_rows H data = Some rows ->
  eventsOf H rows = Some [] ->
  storage_accepts H (u16 "[]") = true ->
  onload H data st = Done (resetView noDataMsg (setSlot (Some (u16 "[]")) st)).
Proof.
  intros Hr He Ha. unfold onload, tryBody, setItem. rewrite Hr, He.
  change (JSON_stringify []) with (u16 "[]"). rewrite Ha. reflexivity.
Qed.

(** X16: [initSchedule] is idempotent: run on the page it has left, it
    leaves that page. *)
Theorem initSchedule_idempotent H st st' :
  initSchedule H st = Done st' -> initSchedule H st' = Done st'.
Proof.
  unfold initSchedule.
  destruct (absent (slot st)) eqn:Ea.
  { intros [= <-]. cbn [slot resetView]. rewrite Ea. reflexivity. }
  destruct (slot st) as [s|] eqn:Es; [|discriminate]. cbn [default from_option id].
  destruct (JSON_parse s) as [v|] eqn:Ep.
  2:{ intros [= <-]. reflexivity. }
  destruct v as [| | | |[|e els]|];
    try (intros [= <-]; cbn [slot resetView]; rewrite Es, Ea;
         cbn [default from_option id]; rewrite Ep; reflexivity).
  destruct (asEntries (e :: els)) as [events|] eqn:Ee; [|discriminate].
  unfold renderSchedule at 1. cbn [slot showControls]. rewrite Es, Ea.
  cbn [default from_option id]. rewrite Ep, Ee.
  intros [= <-]. cbn [slot showGrid showControls]. rewrite Es, Ea.
  cbn [default from_option id]. rewrite Ep, Ee.
  unfold renderSchedule. cbn [slot showGrid showControls]. rewrite Es, Ea.
  cbn [default from_option id]. rewrite Ep, Ee. reflexivity.
Qed.

Lemma initSchedule_idempotent_witness :
  initSchedule (plainHost 0)
    (showGrid noClassesHtml
       (showControls (plainHost 0) [entryAt (u16 "101") (u16 "09:00") [] []]
          (pageWith (Some (JSON_stringify [entryAt (u16 "101") (u16 "09:00") [] []])))))
  = Done (showGrid noClassesHtml
       (showControls (plainHost 0) [entryAt (u16 "101") (u16 "09:00") [] []]
          (pageWith (Some (JSON_stringify [entryAt (u16 "101") (u16 "09:00") [] []]))))).
Proof.
  apply (initSchedule_idempotent (plainHost 0)
           (pageWith (Some (JSON_stringify [entryAt (u16 "101") (u16 "09:00") [] []])))).
  vm_compute. reflexivity.
Defined.


(** A workbook that holds the header alone. *)
Lemma upload_without_data_witness :
  onload (hostReading [sampleHeader]) [] (pageWith None)
  = Done (resetView noDataMsg (setSlot (Some (u16 "[]")) (pageWith None))).
Proof.
  apply (upload_without_data (hostReading [sampleHeader]) [] (pageWith None)
           [sampleHeader] eq_refl).
  - vm_compute. reflexivity.
  - reflexivity.
Defined.

End AppMore.
(** ** More on the service worker *)
Module WorkerMore.
Import JS ServiceWorker Spec WorkerFacts.

Section Match.
Context {Response : Type}.
Implicit Types (caches : gmap jsstring (gmap jsstring Response)) (order : list jsstring).

Lemma caches_match_cons name order caches u :
  caches_match (name :: order) caches u
  = match caches !! name ≫= (.!! u) with
    | Some r => Some r
    | None => caches_match order caches u
    end.
Proof.
  unfold caches_match. cbn [map list_find].
  destruct (caches !! name ≫= (.!! u)) as [r|] eqn:E.
  - rewrite decide_True by (eexists; reflexivity). reflexivity.
  - rewrite decide_False by (intros [? ?]; discriminate).
    destruct (list_find _ _) as [[i x]|]; reflexivity.
Qed.

Lemma caches_match_None order caches u :
  caches_match order caches u = None
  <-> forall name, name ∈ order -> caches !! name ≫= (.!! u) = None.
Proof.
  induction order as [|n order IH].
  - split; [intros _ name Hn; apply elem_of_nil in Hn; contradiction | reflexivity].
  - rewrite caches_match_cons. destruct (caches !! n ≫= (.!! u)) as [r|] eqn:E.
    + split; [discriminate|]. intros Hall.
      rewrite (Hall n) in E by left. discriminate.
    + rewrite IH. split.
      * intros Hall name Hn. apply elem_of_cons in Hn as [->|Hn]; auto.
      * intros Hall name Hn. apply Hall. right. exact Hn.
Qed.

(** When every cache that holds the URL holds the same response. *)
Lemma caches_match_unique order caches u r :
  (forall name, name ∈ order ->
     caches !! name ≫= (.!! u) = Some r \/ caches !! name ≫= (.!! u) = None) ->
  (exists name, name ∈ order /\ caches !! name ≫= (.!! u) = Some r) ->
  caches_match order caches u = Some r.
Proof.
  induction order as [|n order IH]; intros Hall (name & Hn & Hr).
  - apply elem_of_nil in Hn. contradiction.
  - rewrite caches_match_cons.
    destruct (Hall n ltac:(left)) as [E|E]; rewrite E; [reflexivity|].
    apply IH.
    + intros m Hm. apply Hall. right. exact Hm.
    + apply elem_of_cons in Hn as [->|Hn]; [congruence|]. eauto.
Qed.
End Match.

Section Life.
Context {Response : Type}.
Context (resolve : jsstring -> jsstring) (fetch_ok : jsstring -> option Response).
Implicit Types (caches : gmap jsstring (gmap jsstring Response)) (order : list jsstring).

(** The entries [addAll] writes once no URL is given twice. *)
Local Abbreviation batch urls cache :=
  ((fun responses =>
      foldl (fun c ur => <[ur.1 := ur.2]> c) cache
            (zip (map resolve urls) responses))
     <$> mapM (fun u => fetch_ok (resolve u)) urls).

Lemma batch_cons (a : jsstring) (urls : list jsstring) (cache : gmap jsstring Response) :
  batch (a :: urls) cache
  = match fetch_ok (resolve a) with
    | Some y => batch urls (<[resolve a := y]> cache)
    | None => None
    end.
Proof.
  cbn [mapM map].
  destruct (fetch_ok (resolve a)) as [y|]; [|reflexivity]. cbn.
  destruct (mapM _ urls) as [k|]; reflexivity.
Qed.

Lemma batch_lookup (urls : list jsstring) (cache cache' : gmap jsstring Response)
    (u : jsstring) :
  batch urls cache = Some cache' ->
  cache' !! u = if bool_decide (u ∈ map resolve urls) then fetch_ok u else cache !! u.
Proof.
  revert cache. induction urls as [|a urls IH]; intros cache.
  - cbn. intros [= <-]. rewrite bool_decide_eq_false_2 by apply not_elem_of_nil.
    reflexivity.
  - rewrite batch_cons. destruct (fetch_ok (resolve a)) as [y|] eqn:Ey; [|discriminate].
    intros E. rewrite (IH _ E). cbn [map].
    destruct (bool_decide_reflect (u ∈ map resolve urls)) as [Hin|Hnin].
    + rewrite bool_decide_eq_true_2 by (right; exact Hin). reflexivity.
    + destruct (decide (u = resolve a)) as [->|Hne].
      * rewrite bool_decide_eq_true_2 by left. rewrite lookup_insert_eq. congruence.
      * rewrite lookup_insert_ne by congruence.
        rewrite bool_decide_eq_false_2; [reflexivity|].
        intros Hc. apply elem_of_cons in Hc as [?|?]; contradiction.
Qed.

Lemma batch_is_Some (urls : list jsstring) (cache : gmap jsstring Response) :
  is_Some (batch urls cache)
  <-> Forall (fun a => is_Some (fetch_ok (resolve a))) urls.
Proof.
  revert cache. induction urls as [|a urls IH]; intros cache.
  - split; [constructor | intros _; eexists; reflexivity].
  - rewrite batch_cons, Forall_cons.
    destruct (fetch_ok (resolve a)) as [y|].
    + rewrite IH. split; [intros Hf; split; [eexists; reflexivity | exact Hf] | tauto].
    + split; [intros [? ?]; discriminate | intros [[? ?] _]; discriminate].
Qed.

(** When [addAll] resolves, and what the cache holds then. *)
Lemma addAll_lookup (urls : list jsstring) (cache cache' : gmap jsstring Response)
    (u : jsstring) :
  addAll resolve fetch_ok urls cache = Some cache' ->
  cache' !! u = if bool_decide (u ∈ map resolve urls) then fetch_ok u else cache !! u.
Proof.
  unfold addAll. destruct (bool_decide _); [apply batch_lookup | discriminate].
Qed.

Lemma addAll_is_Some (urls : list jsstring) (cache : gmap jsstring Response) :
  is_Some (addAll resolve fetch_ok urls cache)
  <-> NoDup (map resolve urls)
      /\ Forall (fun a => is_Some (fetch_ok (resolve a))) urls.
Proof.
  unfold addAll. destruct (bool_decide_reflect (NoDup (map resolve urls))) as [Hd|Hd].
  - rewrite batch_is_Some. tauto.
  - split; [intros [? ?]; discriminate | tauto].
Qed.

Lemma caches_open_lookup (name : jsstring) caches :
  caches_open name caches !! name = Some (default ∅ (caches !! name))
  /\ forall other, other <> name -> caches_open name caches !! other = caches !! other.
Proof.
  unfold caches_open. destruct (caches !! name) as [c|] eqn:E.
  - split; [rewrite E; reflexivity | reflexivity].
  - split; [apply lookup_insert_eq | intros other Hne; apply lookup_insert_ne; congruence].
Qed.

Lemma oninstall_other caches (name : jsstring) :
  name <> CACHE_NAME ->
  oninstall resolve fetch_ok caches !! name = caches !! name.
Proof.
  intros Hne. unfold oninstall. cbv zeta.
  destruct (caches_open_lookup CACHE_NAME caches) as [_ Hother].
  destruct (addAll _ _ _ _); [rewrite lookup_insert_ne by congruence|];
    apply Hother; exact Hne.
Qed.

Lemma oninstall_kept caches (u : jsstring) :
  default ∅ (caches !! CACHE_NAME) !! u = caches !! CACHE_NAME ≫= (.!! u).
Proof. destruct (caches !! CACHE_NAME); [reflexivity | apply lookup_empty]. Qed.

Lemma oninstall_done caches (u : jsstring) :
  installs resolve fetch_ok ->
  oninstall resolve fetch_ok caches !! CACHE_NAME ≫= (.!! u)
  = if bool_decide (u ∈ map resolve ASSETS) then fetch_ok u
    else caches !! CACHE_NAME ≫= (.!! u).
Proof.
  intros Hi. unfold oninstall. cbv zeta.
  destruct (caches_open_lookup CACHE_NAME caches) as [Hopen _].
  rewrite Hopen. cbn [default from_option id].
  apply (addAll_is_Some ASSETS (default ∅ (caches !! CACHE_NAME))) in Hi as [cache Ea].
  rewrite Ea, lookup_insert_eq. cbn [mbind option_bind].
  rewrite (addAll_lookup _ _ _ u Ea).
  destruct (bool_decide _); [reflexivity | apply oninstall_kept].
Qed.

Lemma oninstall_failed caches (u : jsstring) :
  ~ installs resolve fetch_ok ->
  oninstall resolve fetch_ok caches !! CACHE_NAME ≫= (.!! u)
  = caches !! CACHE_NAME ≫= (.!! u).
Proof.
  intros Hi. unfold oninstall. cbv zeta.
  destruct (caches_open_lookup CACHE_NAME caches) as [Hopen _].
  rewrite Hopen. cbn [default from_option id].
  destruct (addAll resolve fetch_ok ASSETS (default ∅ (caches !! CACHE_NAME)))
    as [cache|] eqn:Ea.
  - exfalso. apply Hi.
    apply (addAll_is_Some ASSETS (default ∅ (caches !! CACHE_NAME))).
    rewrite Ea. eexists. reflexivity.
  - rewrite Hopen. cbn [mbind option_bind]. apply oninstall_kept.
Qed.

Lemma onactivate_lookup (keys : list jsstring) caches (name : jsstring) :
  onactivate keys caches !! name
  = if bool_decide (name = CACHE_NAME) then caches !! name
    else if bool_decide (name ∈ keys) then None else caches !! name.
Proof.
  induction keys as [|k keys IH]; cbn [onactivate foldr].
  - rewrite (bool_decide_eq_false_2 (name ∈ [])) by apply not_elem_of_nil.
    destruct (bool_decide _); reflexivity.
  - fold (onactivate keys caches).
    assert (Hc : bool_decide (name ∈ k :: keys)
                 = bool_decide (name = k) || bool_decide (name ∈ keys)).
    { destruct (bool_decide_reflect (name = k)) as [E|E];
        destruct (bool_decide_reflect (name ∈ keys)) as [Hin|Hnin]; cbn [orb].
      - apply bool_decide_eq_true_2, elem_of_cons. left. exact E.
      - apply bool_decide_eq_true_2, elem_of_cons. left. exact E.
      - apply bool_decide_eq_true_2, elem_of_cons. right. exact Hin.
      - apply bool_decide_eq_false_2. intros Hc.
        apply elem_of_cons in Hc as [?|?]; contradiction. }
    rewrite Hc.
    destruct (bool_decide_reflect (k = CACHE_NAME)) as [Ek|Hk].
    + rewrite IH. destruct (bool_decide_reflect (name = CACHE_NAME)) as [En|Hn];
        [reflexivity|].
      rewrite (bool_decide_eq_false_2 (name = k)) by congruence. reflexivity.
    + destruct (bool_decide_reflect (name = k)) as [En|Hne]; cbn [orb].
      * rewrite En, lookup_delete_eq.
        rewrite (bool_decide_eq_false_2 (k = CACHE_NAME)) by exact Hk. reflexivity.
      * rewrite lookup_delete_ne by congruence. exact IH.
Qed.

(** Cache storage once the worker is installed and activated: the cache
    of the current name alone, holding the application shell. *)
Lemma activated_lookup (keys : list jsstring) caches (name u : jsstring) :
  installs resolve fetch_ok ->
  (forall n, is_Some (oninstall resolve fetch_ok caches !! n) -> n ∈ keys) ->
  onactivate keys (oninstall resolve fetch_ok caches) !! name ≫= (.!! u)
  = if bool_decide (name = CACHE_NAME)
    then if bool_decide (u ∈ map resolve ASSETS) then fetch_ok u
         else caches !! CACHE_NAME ≫= (.!! u)
    else None.
Proof.
  intros Hi Hkeys. rewrite onactivate_lookup.
  destruct (bool_decide_reflect (name = CACHE_NAME)) as [->|Hn].
  - apply oninstall_done. exact Hi.
  - destruct (bool_decide_reflect (name ∈ keys)) as [Hin|Hnin]; [reflexivity|].
    destruct (oninstall resolve fetch_ok caches !! name) eqn:E; [|reflexivity].
    exfalso. apply Hnin, Hkeys. rewrite E. eexists. reflexivity.
Qed.

(** X18: the [install] listener stores the whole application shell or
    nothing.  When the seven paths resolve to different URLs and each is
    fetched, the cache of the current name holds, for each of these URLs,
    the response fetched, and what it held for other URLs; otherwise it
    holds what it held.  No other cache changes. *)
Theorem install_all_or_nothing caches :
  ((installs resolve fetch_ok
    /\ forall u : jsstring,
         oninstall resolve fetch_ok caches !! CACHE_NAME ≫= (.!! u)
         = if bool_decide (u ∈ map resolve ASSETS) then fetch_ok u
           else caches !! CACHE_NAME ≫= (.!! u))
   \/ (~ installs resolve fetch_ok
       /\ forall u : jsstring,
            oninstall resolve fetch_ok caches !! CACHE_NAME ≫= (.!! u)
            = caches !! CACHE_NAME ≫= (.!! u)))
  /\ forall name : jsstring, name <> CACHE_NAME ->
       oninstall resolve fetch_ok caches !! name = caches !! name.
Proof.
  split; [|intros name; apply oninstall_other].
  assert (Hd : Decision (installs resolve fetch_ok)) by (unfold installs; apply _).
  destruct Hd as [Hi|Hi].
  - left. split; [exact Hi|]. intros u. apply oninstall_done. exact Hi.
  - right. split; [exact Hi|]. intros u. apply oninstall_failed. exact Hi.
Qed.

(** X19: the [activate] listener, given the names of all caches, leaves
    the cache of the current name as it is and no other cache. *)
Theorem activate_keeps_current_cache (keys : list jsstring) caches :
  (forall name, is_Some (caches !! name) -> name ∈ keys) ->
  forall name : jsstring,
    onactivate keys caches !! name
    = if bool_decide (name = CACHE_NAME) then caches !! name else None.
Proof.
  intros Hkeys name. rewrite onactivate_lookup.
  destruct (bool_decide (name = CACHE_NAME)); [reflexivity|].
  destruct (bool_decide_reflect (name ∈ keys)) as [Hin|Hnin]; [reflexivity|].
  destruct (caches !! name) eqn:E; [|reflexivity].
  exfalso. apply Hnin, Hkeys. rewrite E. eexists. reflexivity.
Qed.
End Life.

Section Serve.
Context {Response : Type}.
Context (URL_origin : jsstring -> jsstring) (location_origin : jsstring)
        (resolve : jsstring -> jsstring)
        (fetch_ok : jsstring -> option Response)
        (put_accepts : Request -> Response -> bool).
Implicit Types (caches : gmap jsstring (gmap jsstring Response)) (order : list jsstring).

(** X20: a same-origin GET request that misses the caches and is
    answered by the network is answered from the cache when it is made
    again, whatever the network does then, and cache storage stays as the
    first request left it. *)
Theorem second_request_from_cache
    (network network' : Request -> option Response)
    order (request : Request) caches response :
  method request = u16 "GET" ->
  CACHE_NAME ∈ order ->
  caches_match order caches (url request) = None ->
  network request = Some response ->
  URL_origin (url request) = location_origin ->
  put_accepts request response = true ->
  exists caches',
    onfetch URL_origin location_origin resolve network put_accepts
            order request caches = (Some (Some response), caches')
    /\ onfetch URL_origin location_origin resolve network' put_accepts
               order request caches' = (Some (Some response), caches').
Proof.
  intros Hm Hin Hmiss Hnet Ho Hput.
  exists (<[CACHE_NAME := <[url request := response]>
                            (default ∅ (caches !! CACHE_NAME))]> caches).
  unfold onfetch, streq, cache_put.
  rewrite !(bool_decide_eq_true_2 _ Hm). cbn [negb].
  rewrite Hmiss, Hnet, (bool_decide_eq_true_2 _ Ho), Hput.
  split; [reflexivity|].
  rewrite (caches_match_unique order _ (url request) response); [reflexivity| |].
  - intros name Hn. destruct (decide (name = CACHE_NAME)) as [->|Hne].
    + left. rewrite lookup_insert_eq. cbn. apply lookup_insert_eq.
    + right. rewrite lookup_insert_ne by congruence.
      apply (proj1 (caches_match_None order caches (url request)) Hmiss name Hn).
  - exists CACHE_NAME. split; [exact Hin|].
    rewrite lookup_insert_eq. cbn. apply lookup_insert_eq.
Qed.

(** What [caches.match] gives once the worker is installed and
    activated. *)
Lemma activated_match (keys : list jsstring) order caches (u : jsstring) :
  installs resolve fetch_ok ->
  (forall n, is_Some (oninstall resolve fetch_ok caches !! n) -> n ∈ keys) ->
  CACHE_NAME ∈ order ->
  caches_match order (onactivate keys (oninstall resolve fetch_ok caches)) u
  = if bool_decide (u ∈ map resolve ASSETS) then fetch_ok u
    else caches !! CACHE_NAME ≫= (.!! u).
Proof.
  intros Hi Hkeys Hin.
  pose proof (fun name => activated_lookup resolve fetch_ok keys caches name u Hi Hkeys)
    as Hl.
  destruct (if bool_decide (u ∈ map resolve ASSETS) then fetch_ok u
            else caches !! CACHE_NAME ≫= (.!! u)) as [r|].
  - apply caches_match_unique.
    + intros name _. rewrite Hl.
      destruct (bool_decide (name = CACHE_NAME)); [left|right]; reflexivity.
    + exists CACHE_NAME. split; [exact Hin|]. rewrite Hl.
      rewrite bool_decide_eq_true_2 by reflexivity. reflexivity.
  - apply caches_match_None. intros name _. rewrite Hl.
    destruct (bool_decide (name = CACHE_NAME)); reflexivity.
Qed.

(** X21: once the worker is installed and activated, a GET request for
    a URL of the application shell is answered with the response fetched
    at installation, whatever the network does, and cache storage is left
    as it is. *)
Theorem shell_served_offline (keys : list jsstring) order caches
    (request : Request) :
  installs resolve fetch_ok ->
  (forall n, is_Some (oninstall resolve fetch_ok caches !! n) -> n ∈ keys) ->
  CACHE_NAME ∈ order ->
  method request = u16 "GET" ->
  url request ∈ map resolve ASSETS ->
  exists r,
    fetch_ok (url request) = Some r
    /\ forall network : Request -> option Response,
         onfetch URL_origin location_origin resolve network put_accepts order
                 request (onactivate keys (oninstall resolve fetch_ok caches))
         = (Some (Some r), onactivate keys (oninstall resolve fetch_ok caches)).
Proof.
  intros Hi Hkeys Hin Hm Hu.
  assert (Hr : is_Some (fetch_ok (url request))).
  { apply list_elem_of_fmap in Hu as (a & -> & Ha).
    destruct Hi as [_ Hf]. rewrite Forall_forall in Hf. apply Hf. exact Ha. }
  destruct Hr as [r Hr]. exists r. split; [exact Hr|]. intros network.
  unfold onfetch, streq. rewrite (bool_decide_eq_true_2 _ Hm). cbn [negb].
  rewrite (activated_match keys order caches (url request) Hi Hkeys Hin).
  rewrite (bool_decide_eq_true_2 _ Hu), Hr. reflexivity.
Qed.

(** X22: once the worker is installed and activated, a navigation to a
    URL that is not cached, made while the network fails, is answered with
    the [index.html] fetched at installation. *)
Theorem offline_navigation_fallback (keys : list jsstring) order caches
    (network : Request -> option Response) (request : Request) :
  installs resolve fetch_ok ->
  (forall n, is_Some (oninstall resolve fetch_ok caches !! n) -> n ∈ keys) ->
  CACHE_NAME ∈ order ->
  method request = u16 "GET" ->
  mode request = u16 "navigate" ->
  url request ∉ map resolve ASSETS ->
  caches !! CACHE_NAME ≫= (.!! url request) = None ->
  network request = None ->
  exists r,
    fetch_ok (resolve (u16 "index.html")) = Some r
    /\ onfetch URL_origin location_origin resolve network put_accepts order
               request (onactivate keys (oninstall resolve fetch_ok caches))
       = (Some (Some r), onactivate keys (oninstall resolve fetch_ok caches)).
Proof.
  intros Hi Hkeys Hin Hm Hmode Hu Hold Hnet.
  assert (Hidx : resolve (u16 "index.html") ∈ map resolve ASSETS).
  { apply list_elem_of_fmap. exists (u16 "index.html"). split; [reflexivity|].
    right. left. }
  assert (Hr : is_Some (fetch_ok (resolve (u16 "index.html")))).
  { destruct Hi as [_ Hf]. rewrite Forall_forall in Hf. apply Hf.
    right. left. }
  destruct Hr as [r Hr]. exists r. split; [exact Hr|].
  unfold onfetch, streq. rewrite (bool_decide_eq_true_2 _ Hm). cbn [negb].
  rewrite (activated_match keys order caches (url request) Hi Hkeys Hin).
  rewrite (bool_decide_eq_false_2 _ Hu), Hold, Hnet.
  rewrite (bool_decide_eq_true_2 _ Hmode).
  rewrite (activated_match keys order caches _ Hi Hkeys Hin).
  rewrite (bool_decide_eq_true_2 _ Hidx), Hr. reflexivity.
Qed.
End Serve.

(** A worker under [https://app.example/], every asset fetched, no cache
    before the installation. *)
Lemma fresh_install_installs : installs underScope (always 7).
Proof.
  split.
  - apply (bool_decide_unpack _). vm_compute. exact I.
  - apply Forall_forall. intros a _. eexists. reflexivity.
Qed.

Lemma fresh_install_keys (n : jsstring) :
  is_Some (oninstall underScope (always 7) ∅ !! n) -> n ∈ [CACHE_NAME].
Proof.
  destruct (decide (n = CACHE_NAME)) as [->|Hne]; [left|].
  rewrite oninstall_other by exact Hne. rewrite lookup_empty.
  intros [? ?]. discriminate.
Qed.

(** An older cache beside the current one is deleted. *)
Lemma activate_keeps_current_cache_witness :
  onactivate [u16 "schedule-pwa-v0"; CACHE_NAME]
             (<[u16 "schedule-pwa-v0" := ∅]> (<[CACHE_NAME := ∅]> ∅))
    !! u16 "schedule-pwa-v0"
  = (None : option (gmap jsstring nat)).
Proof.
  refine (activate_keeps_current_cache (Response := nat)
            [u16 "schedule-pwa-v0"; CACHE_NAME]
            (<[u16 "schedule-pwa-v0" := ∅]> (<[CACHE_NAME := ∅]> ∅)) _
            (u16 "schedule-pwa-v0")).
  intros name [c Hc].
  destruct (decide (name = u16 "schedule-pwa-v0")) as [->|H0]; [left|].
  rewrite lookup_insert_ne in Hc by congruence.
  destruct (decide (name = CACHE_NAME)) as [->|H1]; [right; left|].
  rewrite lookup_insert_ne, lookup_empty in Hc by congruence. discriminate.
Defined.

(** The page's script, fetched once, is served while the network fails. *)
Lemma second_request_from_cache_witness :
  exists caches',
    onfetch (fun _ => u16 "https://app.example") (u16 "https://app.example")
            underScope (fun _ => Some 7%nat) (fun _ _ => true) [CACHE_NAME]
            {| method := u16 "GET"; url := underScope (u16 "script.js");
               mode := u16 "no-cors" |} ∅
    = (Some (Some 7%nat), caches')
    /\ onfetch (fun _ => u16 "https://app.example") (u16 "https://app.example")
               underScope (fun _ => None) (fun _ _ => true) [CACHE_NAME]
               {| method := u16 "GET"; url := underScope (u16 "script.js");
                  mode := u16 "no-cors" |} caches'
       = (Some (Some 7%nat), caches').
Proof.
  refine (second_request_from_cache (Response := nat)
            (fun _ => u16 "https://app.example") (u16 "https://app.example")
            underScope (fun _ _ => true) (fun _ => Some 7%nat) (fun _ => None)
            [CACHE_NAME]
            {| method := u16 "GET"; url := underScope (u16 "script.js");
               mode := u16 "no-cors" |} ∅ 7%nat _ _ _ _ _ _).
  - reflexivity.
  - left.
  - apply caches_match_None. intros name _. rewrite lookup_empty. reflexivity.
  - reflexivity.
  - reflexivity.
  - reflexivity.
Defined.

(** The style sheet of a freshly installed worker. *)
Lemma shell_served_offline_witness :
  exists r,
    always 7 (underScope (u16 "style.css")) = Some r
    /\ forall network : Request -> option nat,
         onfetch (fun _ => u16 "https://app.example") (u16 "https://app.example")
                 underScope network (fun _ _ => true) [CACHE_NAME]
                 {| method := u16 "GET"; url := underScope (u16 "style.css");
                    mode := u16 "no-cors" |}
                 (onactivate [CACHE_NAME] (oninstall underScope (always 7) ∅))
         = (Some (Some r),
            onactivate [CACHE_NAME] (oninstall underScope (always 7) ∅)).
Proof.
  refine (shell_served_offline (Response := nat)
            (fun _ => u16 "https://app.example") (u16 "https://app.example")
            underScope (always 7) (fun _ _ => true) [CACHE_NAME] [CACHE_NAME] ∅
            {| method := u16 "GET"; url := underScope (u16 "style.css");
               mode := u16 "no-cors" |} _ _ _ _ _).
  - exact fresh_install_installs.
  - exact fresh_install_keys.
  - left.
  - reflexivity.
  - apply (bool_decide_unpack _). vm_compute. exact I.
Defined.

(** A navigation to a page that is not part of the shell. *)
Lemma offline_navigation_fallback_witness :
  exists r,
    always 7 (underScope (u16 "index.html")) = Some r
    /\ onfetch (fun _ => u16 "https://app.example") (u16 "https://app.example")
               underScope (fun _ => None) (fun _ _ => true) [CACHE_NAME]
               {| method := u16 "GET"; url := underScope (u16 "timetable");
                  mode := u16 "navigate" |}
               (onactivate [CACHE_NAME] (oninstall underScope (always 7) ∅))
       = (Some (Some r),
          onactivate [CACHE_NAME] (oninstall underScope (always 7) ∅)).
Proof.
  refine (offline_navigation_fallback (Response := nat)
            (fun _ => u16 "https://app.example") (u16 "https://app.example")
            underScope (always 7) (fun _ _ => true) [CACHE_NAME] [CACHE_NAME] ∅
            (fun _ => None)
            {| method := u16 "GET"; url := underScope (u16 "timetable");
               mode := u16 "navigate" |} _ _ _ _ _ _ _ _).
  - exact fresh_install_installs.
  - exact fresh_install_keys.
  - left.
  - reflexivity.
  - reflexivity.
  - apply (bool_decide_eq_false_1 _). vm_compute. reflexivity.
  - rewrite lookup_empty. reflexivity.
  - reflexivity.
Defined.
End WorkerMore.
